(** * LLM MailGuard helper (Support/bin/llm_common.py)

    A shallow embedding of the helper module of the MailMate bundle and
    the properties its specification states about it.

    Python values are modelled as follows.
    - A [str] is a list of Unicode code points ([pystr], each code point
      an [N]); [len] is [length], [+] is [++], an f-string is the
      concatenation of its pieces.
    - A function that may raise returns a [result]: [Ret v] or
      [Raise e]; [try ... except] is a match on the result.
    - Dictionaries keep insertion order, so a [dict] is an association
      list.
    - The operating system (the osascript bridge, the filesystem, the
      keychain tool, the HTTP layer) is outside the module: each is
      either a parameter of a section or a small explicit state.
    - The [json] module of the standard library is modelled from its
      documented behaviour: [json.dumps] with and without [indent],
      and [json.loads]. *)

From Stdlib Require Import String Ascii.
From Stdlib Require Import List NArith ZArith Bool Lia.
From Stdlib Require Decimal DecimalFacts DecimalPos DecimalN DecimalZ.
Import ListNotations.

Set Warnings "-register-all".
Set Default Proof Using "Type".
Open Scope list_scope.

(** ** Strings *)

Module PyStr.

Definition pystr := list N.

(** A literal of the source, read as code points. *)
Definition py (s : string) : pystr := map N_of_ascii (list_ascii_of_string s).

Definition c_tab : N := 9.
Definition c_newline : N := 10.
Definition c_return : N := 13.
Definition c_space : N := 32.
Definition c_quote : N := 34.
Definition c_backslash : N := 92.

Definition nl : pystr := [c_newline].

(** [q s] is [s] between two double-quote characters. *)
Definition q (s : pystr) : pystr := [c_quote] ++ s ++ [c_quote].

(** [text.replace(old, new)] where [old] is one character: every
    occurrence is replaced, left to right. *)
Definition replace_char (old : N) (new : pystr) (text : pystr) : pystr :=
  flat_map (fun c => if N.eqb c old then new else [c]) text.

(** [str.isspace] on one code point (the Unicode white-space table of
    CPython). *)
Definition isspace (c : N) : bool :=
  ((9 <=? c) && (c <=? 13) || (28 <=? c) && (c <=? 32)
   || (c =? 133) || (c =? 160) || (c =? 5760)
   || (8192 <=? c) && (c <=? 8202)
   || (c =? 8232) || (c =? 8233) || (c =? 8239) || (c =? 8287)
   || (c =? 12288))%N.

Fixpoint lstrip (s : pystr) : pystr :=
  match s with
  | c :: s' => if isspace c then lstrip s' else s
  | [] => []
  end.

Definition rstrip (s : pystr) : pystr := rev (lstrip (rev s)).

(** [s.strip()] *)
Definition strip (s : pystr) : pystr := rstrip (lstrip s).

Fixpoint startswith (s prefix : pystr) {struct prefix} : bool :=
  match prefix, s with
  | [], _ => true
  | p :: prefix', c :: s' => N.eqb p c && startswith s' prefix'
  | _ :: _, [] => false
  end.

Definition endswith (s suffix : pystr) : bool :=
  startswith (rev s) (rev suffix).

(** [sub in s] for two strings. *)
Fixpoint str_contains (sub s : pystr) : bool :=
  startswith s sub ||
  match s with
  | [] => false
  | _ :: s' => str_contains sub s'
  end.

(** [a == b] on strings. *)
Fixpoint pystr_eqb (a b : pystr) : bool :=
  match a, b with
  | [], [] => true
  | x :: a', y :: b' => N.eqb x y && pystr_eqb a' b'
  | _, _ => false
  end.

End PyStr.
Export PyStr.

(** ** Python values and the json module *)

Module PyVal.

(** A float is kept as the decimal number its [repr] prints:
    [FDec neg m e] stands for (+/-) m * 10^e.  The program never
    computes with floats; rounding to a binary double is not modelled. *)
Inductive pyfloat : Type :=
| FNaN
| FInf (neg : bool)
| FDec (neg : bool) (mant : N) (exp10 : Z).

(** Dictionary keys that [json.dumps] accepts. *)
Inductive pykey : Type :=
| KStr (s : pystr)
| KInt (z : Z)
| KBool (b : bool)
| KNone.

Inductive pyval : Type :=
| PyNone
| PyBool (b : bool)
| PyInt (z : Z)
| PyFloat (f : pyfloat)
| PyStr (s : pystr)
| PyList (l : list pyval)
| PyDict (d : list (pykey * pyval)).

(** [k1 == k2] on keys: [True == 1] and [False == 0]. *)
Definition key_eqb (k1 k2 : pykey) : bool :=
  match k1, k2 with
  | KStr a, KStr b => pystr_eqb a b
  | KInt a, KInt b => (a =? b)%Z
  | KInt a, KBool b | KBool b, KInt a => (a =? (if b then 1 else 0))%Z
  | KBool a, KBool b => Bool.eqb a b
  | KNone, KNone => true
  | _, _ => false
  end.

(** [d.get(k)] *)
Fixpoint dict_get {V} (d : list (pykey * V)) (k : pykey) : option V :=
  match d with
  | [] => None
  | (k', v) :: d' => if key_eqb k' k then Some v else dict_get d' k
  end.

(** [d[k] = v]: an existing key keeps its place. *)
Fixpoint dict_set {V} (d : list (pykey * V)) (k : pykey) (v : V) : list (pykey * V) :=
  match d with
  | [] => [(k, v)]
  | (k', v') :: d' =>
      if key_eqb k' k then (k', v) :: d' else (k', v') :: dict_set d' k v
  end.

(** *** Numbers as text *)

Fixpoint uint_chars (u : Decimal.uint) : pystr :=
  match u with
  | Decimal.Nil => []
  | Decimal.D0 u => 48%N :: uint_chars u
  | Decimal.D1 u => 49%N :: uint_chars u
  | Decimal.D2 u => 50%N :: uint_chars u
  | Decimal.D3 u => 51%N :: uint_chars u
  | Decimal.D4 u => 52%N :: uint_chars u
  | Decimal.D5 u => 53%N :: uint_chars u
  | Decimal.D6 u => 54%N :: uint_chars u
  | Decimal.D7 u => 55%N :: uint_chars u
  | Decimal.D8 u => 56%N :: uint_chars u
  | Decimal.D9 u => 57%N :: uint_chars u
  end.

(** [str(z)] for an [int]. *)
Definition str_of_int (z : Z) : pystr :=
  match Z.to_int z with
  | Decimal.Pos u => uint_chars u
  | Decimal.Neg u => 45%N :: uint_chars u
  end.

(** [float.__repr__] on a finite float: fixed notation when the
    decimal point falls in (-4, 16], exponent notation otherwise. *)
Definition float_repr_finite (neg : bool) (m : N) (e : Z) : pystr :=
  (if neg then py "-" else []) ++
  if (m =? 0)%N then py "0.0" else
  let ds := uint_chars (N.to_uint m) in
  let n := Z.of_nat (length ds) in
  let decpt := (n + e)%Z in
  if ((decpt <=? -4) || (16 <? decpt))%Z then
    let x := (decpt - 1)%Z in
    let xs := uint_chars (N.to_uint (Z.to_N (Z.abs x))) in
    firstn 1 ds ++ (if (1 <? n)%Z then py "." ++ skipn 1 ds else []) ++
    py "e" ++ (if (x <? 0)%Z then py "-" else py "+") ++
    (if (length xs <? 2)%nat then py "0" else []) ++ xs
  else if (decpt <=? 0)%Z then
    py "0." ++ repeat 48%N (Z.to_nat (- decpt)) ++ ds
  else if (n <=? decpt)%Z then
    ds ++ repeat 48%N (Z.to_nat (decpt - n)) ++ py ".0"
  else
    firstn (Z.to_nat decpt) ds ++ py "." ++ skipn (Z.to_nat decpt) ds.

(** How [json.dumps] writes a float ([allow_nan] is on). *)
Definition floatstr (f : pyfloat) : pystr :=
  match f with
  | FNaN => py "NaN"
  | FInf false => py "Infinity"
  | FInf true => py "-Infinity"
  | FDec neg m e => float_repr_finite neg m e
  end.

(** *** json.dumps *)

Definition hexdigit (d : N) : N := (if d <? 10 then 48 + d else 87 + d)%N.

(** ['{0:04x}'.format(n)] for [n < 0x10000]. *)
Definition hex4 (n : N) : pystr :=
  [hexdigit (n / 4096); hexdigit ((n / 256) mod 16);
   hexdigit ((n / 16) mod 16); hexdigit (n mod 16)]%N.

Definition c_u : N := 117.

(** The replacement of one character in [py_encode_basestring_ascii]. *)
Definition escape_ascii (c : N) : pystr :=
  if (c =? c_quote)%N then [c_backslash; c_quote]
  else if (c =? c_backslash)%N then [c_backslash; c_backslash]
  else if (c =? 10)%N then [c_backslash; 110%N]
  else if (c =? 13)%N then [c_backslash; 114%N]
  else if (c =? 9)%N then [c_backslash; 116%N]
  else if (c =? 8)%N then [c_backslash; 98%N]
  else if (c =? 12)%N then [c_backslash; 102%N]
  else if ((32 <=? c) && (c <=? 126))%N then [c]
  else if (c <? 65536)%N then c_backslash :: c_u :: hex4 c
  else
    let n := (c - 65536)%N in
    let s1 := N.lor 55296 (N.land (N.shiftr n 10) 1023) in
    let s2 := N.lor 56320 (N.land n 1023) in
    (c_backslash :: c_u :: hex4 s1) ++ (c_backslash :: c_u :: hex4 s2).

(** [py_encode_basestring_ascii]: the JSON text of a string
    ([ensure_ascii] is on). *)
Definition encode_basestring_ascii (s : pystr) : pystr :=
  q (flat_map escape_ascii s).

(** The string a key is turned into before it is written. *)
Definition key_str (k : pykey) : pystr :=
  match k with
  | KStr s => s
  | KInt z => str_of_int z
  | KBool true => py "true"
  | KBool false => py "false"
  | KNone => py "null"
  end.

Fixpoint join (sep : pystr) (items : list pystr) : pystr :=
  match items with
  | [] => []
  | x :: rest =>
      x ++ match rest with
           | [] => []
           | _ :: _ => sep ++ join sep rest
           end
  end.

(** ['\n' + indent * level], or nothing without [indent]. *)
Definition newline_indent (indent : option nat) (level : nat) : pystr :=
  match indent with
  | Some n => nl ++ repeat c_space (n * level)
  | None => []
  end.

Definition item_separator (indent : option nat) : pystr :=
  match indent with
  | Some _ => py ","
  | None => py ", "
  end.

Definition key_separator : pystr := py ": ".

(** [JSONEncoder(indent=indent).encode(o)] at nesting depth [level]. *)
Fixpoint encode (indent : option nat) (level : nat) (o : pyval) {struct o} : pystr :=
  match o with
  | PyNone => py "null"
  | PyBool true => py "true"
  | PyBool false => py "false"
  | PyInt z => str_of_int z
  | PyFloat f => floatstr f
  | PyStr s => encode_basestring_ascii s
  | PyList [] => py "[]"
  | PyList l =>
      py "[" ++ newline_indent indent (S level) ++
      join (item_separator indent ++ newline_indent indent (S level))
           (map (encode indent (S level)) l) ++
      newline_indent indent level ++ py "]"
  | PyDict [] => py "{}"
  | PyDict d =>
      py "{" ++ newline_indent indent (S level) ++
      join (item_separator indent ++ newline_indent indent (S level))
           (map (fun kv =>
                   encode_basestring_ascii (key_str (fst kv)) ++ key_separator ++
                   encode indent (S level) (snd kv)) d) ++
      newline_indent indent level ++ py "}"
  end.

(** [json.dumps(o)] and [json.dumps(o, indent=n)] *)
Definition json_dumps (o : pyval) : pystr := encode None 0 o.

End PyVal.
Export PyVal.

(** ** Exceptions *)

Module PyExn.

Inductive exn : Type :=
| PyException (msg : pystr)              (* raise Exception(msg) *)
| HTTPError (code : Z) (fp : option pystr)  (* urllib.error.HTTPError *)
| URLError (reason : pystr)              (* urllib.error.URLError *)
| KeyError (key : pykey)
| IndexError
| TypeError
| JSONDecodeError
| OSError.

Inductive result (A : Type) : Type :=
| Ret (a : A)
| Raise (e : exn).
Arguments Ret {A} a.
Arguments Raise {A} e.

Definition bind {A B} (m : result A) (k : A -> result B) : result B :=
  match m with
  | Ret a => k a
  | Raise e => Raise e
  end.

(** [try: body] with its [except] clauses as [handler]: a handler
    that does not take an exception raises it again. *)
Definition try_except {A} (body : result A) (handler : exn -> result A) : result A :=
  match body with
  | Ret a => Ret a
  | Raise e => handler e
  end.

End PyExn.
Export PyExn.

Notation "x <- m ;; k" := (bind m (fun x => k))
  (at level 61, m at next level, right associativity).

(** ** Dialog layer (lines 18-93) *)

Module Dialog.

Definition MAILMATE_ICON : pystr :=
  py "/Applications/MailMate.app/Contents/Resources/MailMate.icns".

Definition DEFAULT_TITLE : pystr := py "LLM MailGuard".

(** [escape_for_applescript], lines 41-45. *)
Definition escape_for_applescript (text : pystr) : pystr :=
  let text := replace_char c_backslash [c_backslash; c_backslash] text in
  let text := replace_char c_quote [c_backslash; c_quote] text in
  text.

(** The f-string of [show_alert] (lines 52-57), its two holes filled
    with [message] and [title]. *)
Definition alert_template (message title : pystr) : pystr :=
  nl ++ py "    set iconPath to POSIX file " ++ q MAILMATE_ICON ++
  nl ++ py "    tell application " ++ q (py "System Events") ++
  nl ++ py "        display dialog " ++ q message ++
        py " with title " ++ q title ++
        py " buttons {" ++ q (py "OK") ++ py "} default button " ++ q (py "OK") ++
        py " with icon iconPath" ++
  nl ++ py "    end tell" ++
  nl ++ py "    ".

(** The f-string of [show_dialog] (lines 67-73). *)
Definition dialog_template (message default_answer hidden_str title : pystr) : pystr :=
  nl ++ py "    set iconPath to POSIX file " ++ q MAILMATE_ICON ++
  nl ++ py "    tell application " ++ q (py "System Events") ++
  nl ++ py "        set dialogResult to display dialog " ++ q message ++
        py " default answer " ++ q default_answer ++
        py " " ++ hidden_str ++
        py " buttons {" ++ q (py "Cancel") ++ py ", " ++ q (py "OK") ++
        py "} default button " ++ q (py "OK") ++
        py " with title " ++ q title ++
        py " with icon iconPath" ++
  nl ++ py "        return text returned of dialogResult" ++
  nl ++ py "    end tell" ++
  nl ++ py "    ".

(** The f-string of [show_threat_dialog] (lines 81-91). *)
Definition threat_template (threat_type reason title : pystr) : pystr :=
  nl ++ py "    set iconPath to POSIX file " ++ q MAILMATE_ICON ++
  nl ++ py "    tell application " ++ q (py "System Events") ++
  nl ++ py "        set dialogResult to display dialog " ++
        q (threat_type ++ nl ++ nl ++ py "Reason: " ++ reason ++ nl ++ nl ++
           py "Move to Junk folder?") ++
        py " buttons {" ++ q (py "Keep") ++ py ", " ++ q (py "Move to Junk") ++
        py "} default button " ++ q (py "Move to Junk") ++
        py " with title " ++ q title ++
        py " with icon iconPath" ++
  nl ++ py "        return button returned of dialogResult" ++
  nl ++ py "    end tell" ++
  nl ++ py "    ".

(** The script each function hands to [run_applescript]. *)
Definition show_alert_script (message title : pystr) : pystr :=
  let message := escape_for_applescript message in
  let title := escape_for_applescript title in
  alert_template message title.

Definition show_dialog_script (message default_answer : pystr) (hidden : bool)
    (title : pystr) : pystr :=
  let message := escape_for_applescript message in
  let default_answer := escape_for_applescript default_answer in
  let title := escape_for_applescript title in
  let hidden_str := if hidden then py "with hidden answer" else [] in
  dialog_template message default_answer hidden_str title.

Definition show_threat_dialog_script (threat_type reason title : pystr) : pystr :=
  let reason := escape_for_applescript reason in
  let title := escape_for_applescript title in
  threat_template threat_type reason title.

Section Bridge.

(** [subprocess.run(["osascript", "-e", script], capture_output=True,
    text=True)]: the return code and the captured standard output, or
    an exception when the process cannot be started. *)
Variable osascript : pystr -> result (Z * pystr).

(** [run_applescript], lines 26-38. *)
Definition run_applescript (script : pystr) : option pystr :=
  match osascript script with
  | Ret (returncode, stdout) =>
      if negb (returncode =? 0)%Z then None else Some (strip stdout)
  | Raise _ => None
  end.

(** [show_alert], lines 48-58: the result of the bridge is dropped. *)
Definition show_alert (message title : pystr) : unit :=
  let _ := run_applescript (show_alert_script message title) in tt.

(** [show_dialog], lines 61-74. *)
Definition show_dialog (message default_answer : pystr) (hidden : bool)
    (title : pystr) : option pystr :=
  run_applescript (show_dialog_script message default_answer hidden title).

(** [show_threat_dialog], lines 77-93. *)
Definition show_threat_dialog (threat_type reason title : pystr) : bool :=
  match run_applescript (show_threat_dialog_script threat_type reason title) with
  | Some result => pystr_eqb result (py "Move to Junk")
  | None => false
  end.

End Bridge.

(** How AppleScript reads the inside of a string literal: a backslash
    takes the next character with it ([\n], [\r] and [\t] stand for
    the control characters, any other escaped character for itself). *)
Definition escaped_char (e : N) : N :=
  if N.eqb e 110 then c_newline
  else if N.eqb e 114 then c_return
  else if N.eqb e 116 then c_tab
  else e.

Fixpoint applescript_unescape (s : pystr) : pystr :=
  match s with
  | [] => []
  | c :: rest =>
      if N.eqb c c_backslash then
        match rest with
        | [] => [c]
        | e :: rest' => escaped_char e :: applescript_unescape rest'
        end
      else c :: applescript_unescape rest
  end.

(** The literal that starts right after an opening quote: its decoded
    content and the script text after its closing quote. *)
Fixpoint applescript_literal (s : pystr) : option (pystr * pystr) :=
  match s with
  | [] => None
  | c :: rest =>
      if N.eqb c c_quote then Some ([], rest)
      else if N.eqb c c_backslash then
        match rest with
        | [] => None
        | e :: rest' =>
            match applescript_literal rest' with
            | Some (content, after) => Some (escaped_char e :: content, after)
            | None => None
            end
        end
      else
        match applescript_literal rest with
        | Some (content, after) => Some (c :: content, after)
        | None => None
        end
  end.

End Dialog.
Export Dialog.

(** *** json.loads *)

Module JsonDecoder.

Definition is_ws (c : N) : bool :=
  ((c =? 32) || (c =? 9) || (c =? 10) || (c =? 13))%N.

Fixpoint skip_ws (s : pystr) : pystr :=
  match s with
  | c :: s' => if is_ws c then skip_ws s' else s
  | [] => []
  end.

Definition is_digit (c : N) : bool := ((48 <=? c) && (c <=? 57))%N.

Definition hexval (c : N) : option N :=
  if is_digit c then Some (c - 48)%N
  else if ((97 <=? c) && (c <=? 102))%N then Some (c - 87)%N
  else if ((65 <=? c) && (c <=? 70))%N then Some (c - 55)%N
  else None.

(** [_decode_uXXXX]: four hexadecimal digits. *)
Definition decode_uXXXX (a b c d : N) : option N :=
  match hexval a, hexval b, hexval c, hexval d with
  | Some x3, Some x2, Some x1, Some x0 =>
      Some (((x3 * 16 + x2) * 16 + x1) * 16 + x0)%N
  | _, _, _, _ => None
  end.

(** The [BACKSLASH] table of the decoder. *)
Definition backslash_char (e : N) : option N :=
  if (e =? c_quote)%N then Some c_quote
  else if (e =? c_backslash)%N then Some c_backslash
  else if (e =? 47)%N then Some 47%N
  else if (e =? 98)%N then Some 8%N
  else if (e =? 102)%N then Some 12%N
  else if (e =? 110)%N then Some 10%N
  else if (e =? 114)%N then Some 13%N
  else if (e =? 116)%N then Some 9%N
  else None.

Definition is_high_surrogate (u : N) : bool := ((55296 <=? u) && (u <=? 56319))%N.
Definition is_low_surrogate (u : N) : bool := ((56320 <=? u) && (u <=? 57343))%N.

Definition join_surrogates (uni uni2 : N) : N :=
  (65536 + N.lor (N.shiftl (uni - 55296) 10) (uni2 - 56320))%N.

Definition push (c : N) (r : option (pystr * pystr)) : option (pystr * pystr) :=
  match r with
  | Some (content, rest) => Some (c :: content, rest)
  | None => None
  end.

(** [py_scanstring] in strict mode, from the character after the
    opening quote: the decoded string and the text after the closing
    quote. *)
Fixpoint scanstring (s : pystr) : option (pystr * pystr) :=
  match s with
  | [] => None
  | c :: s1 =>
      if (c =? c_quote)%N then Some ([], s1)
      else if (c =? c_backslash)%N then
        match s1 with
        | [] => None
        | e :: s2 =>
            if (e =? c_u)%N then
              match s2 with
              | a :: b :: c' :: d :: s3 =>
                  match decode_uXXXX a b c' d with
                  | None => None
                  | Some uni =>
                      if is_high_surrogate uni then
                        match s3 with
                        | b1 :: u1 :: s4 =>
                            if ((b1 =? c_backslash) && (u1 =? c_u))%N then
                              match s4 with
                              | a2 :: b2 :: c2 :: d2 :: s5 =>
                                  match decode_uXXXX a2 b2 c2 d2 with
                                  | None => None
                                  | Some uni2 =>
                                      if is_low_surrogate uni2
                                      then push (join_surrogates uni uni2) (scanstring s5)
                                      else push uni (scanstring s3)
                                  end
                              | _ => None
                              end
                            else push uni (scanstring s3)
                        | _ => push uni (scanstring s3)
                        end
                      else push uni (scanstring s3)
                  end
              | _ => None
              end
            else
              match backslash_char e with
              | Some ch => push ch (scanstring s2)
              | None => None
              end
        end
      else if (c <? 32)%N then None
      else push c (scanstring s1)
  end.

Definition digit_of (c : N) : option (Decimal.uint -> Decimal.uint) :=
  if (c =? 48)%N then Some Decimal.D0
  else if (c =? 49)%N then Some Decimal.D1
  else if (c =? 50)%N then Some Decimal.D2
  else if (c =? 51)%N then Some Decimal.D3
  else if (c =? 52)%N then Some Decimal.D4
  else if (c =? 53)%N then Some Decimal.D5
  else if (c =? 54)%N then Some Decimal.D6
  else if (c =? 55)%N then Some Decimal.D7
  else if (c =? 56)%N then Some Decimal.D8
  else if (c =? 57)%N then Some Decimal.D9
  else None.

(** The longest run of decimal digits at the head of [s]. *)
Fixpoint read_digits (s : pystr) : Decimal.uint * pystr :=
  match s with
  | [] => (Decimal.Nil, [])
  | c :: s' =>
      match digit_of c with
      | Some d => let (u, rest) := read_digits s' in (d u, rest)
      | None => (Decimal.Nil, s)
      end
  end.

(** The integer part of [NUMBER_RE]: an optional minus sign, then
    either a single 0 or a digit 1-9 followed by any digits. *)
Definition read_integer (s : pystr) : option (bool * Decimal.uint * pystr) :=
  let (neg, s1) :=
    match s with
    | c :: s' => if (c =? 45)%N then (true, s') else (false, s)
    | [] => (false, s)
    end in
  match s1 with
  | [] => None
  | c :: s2 =>
      if (c =? 48)%N then Some (neg, Decimal.D0 Decimal.Nil, s2)
      else if is_digit c then
        let (u, rest) := read_digits s1 in Some (neg, u, rest)
      else None
  end.

(** The optional fraction of [NUMBER_RE]: a dot and one or more digits. *)
Definition read_frac (s : pystr) : option Decimal.uint * pystr :=
  match s with
  | c :: s1 =>
      if (c =? 46)%N then
        match read_digits s1 with
        | (Decimal.Nil, _) => (None, s)
        | (f, rest) => (Some f, rest)
        end
      else (None, s)
  | [] => (None, s)
  end.

(** The optional exponent of [NUMBER_RE]: e or E, an optional sign,
    one or more digits. *)
Definition read_exp (s : pystr) : option Z * pystr :=
  match s with
  | c :: s1 =>
      if ((c =? 101) || (c =? 69))%N then
        let (neg, s2) :=
          match s1 with
          | sg :: s' =>
              if (sg =? 45)%N then (true, s')
              else if (sg =? 43)%N then (false, s')
              else (false, s1)
          | [] => (false, s1)
          end in
        match read_digits s2 with
        | (Decimal.Nil, _) => (None, s)
        | (x, rest) =>
            (Some (if neg then - Z.of_uint x else Z.of_uint x)%Z, rest)
        end
      else (None, s)
  | [] => (None, s)
  end.

Fixpoint strip_zeros (fuel : nat) (m : N) (e : Z) : N * Z :=
  match fuel with
  | O => (m, e)
  | S fuel' =>
      if (m mod 10 =? 0)%N then strip_zeros fuel' (m / 10)%N (e + 1)%Z else (m, e)
  end.

(** [float(text)] of a number with a fraction or an exponent, as the
    decimal it denotes. *)
Definition parse_float (neg : bool) (i : Decimal.uint) (f : option Decimal.uint)
    (x : option Z) : pyfloat :=
  let fd := match f with Some fd => fd | None => Decimal.Nil end in
  let k := Decimal.nb_digits fd in
  let m := (N.of_uint i * 10 ^ N.of_nat k + N.of_uint fd)%N in
  let e := ((match x with Some e => e | None => 0 end) - Z.of_nat k)%Z in
  if (m =? 0)%N then FDec neg 0 0
  else let (m', e') := strip_zeros (Decimal.nb_digits i + k) m e in FDec neg m' e'.

(** A match of [NUMBER_RE] at the head of [s]. *)
Definition match_number (s : pystr) : option (pyval * pystr) :=
  match read_integer s with
  | None => None
  | Some (neg, i, s1) =>
      let (f, s2) := read_frac s1 in
      let (x, s3) := read_exp s2 in
      match f, x with
      | None, None =>
          Some (PyInt (if neg then - Z.of_uint i else Z.of_uint i)%Z, s3)
      | _, _ => Some (PyFloat (parse_float neg i f x), s3)
      end
  end.

(** [dict(pairs)]: a repeated key keeps its first place and takes the
    last value. *)
Definition dict_of_pairs (pairs : list (pystr * pyval)) : list (pykey * pyval) :=
  fold_left (fun d kv => dict_set d (KStr (fst kv)) (snd kv)) pairs [].

(** [scan_once] of the decoder with [JSONArray] and [JSONObject];
    [fuel] bounds the depth of the calls. *)
Fixpoint scan_once (fuel : nat) (s : pystr) {struct fuel} : option (pyval * pystr) :=
  match fuel with
  | O => None
  | S fuel' =>
      match s with
      | [] => None
      | c :: s1 =>
          if (c =? c_quote)%N then
            match scanstring s1 with
            | Some (str, rest) => Some (PyStr str, rest)
            | None => None
            end
          else if (c =? 123)%N then
            match skip_ws s1 with
            | [] => None
            | c2 :: s3 =>
                if (c2 =? 125)%N then Some (PyDict [], s3)
                else
                  match scan_pairs fuel' (c2 :: s3) with
                  | Some (pairs, rest) => Some (PyDict (dict_of_pairs pairs), rest)
                  | None => None
                  end
            end
          else if (c =? 91)%N then
            match skip_ws s1 with
            | [] => None
            | c2 :: s3 =>
                if (c2 =? 93)%N then Some (PyList [], s3)
                else
                  match scan_items fuel' (c2 :: s3) with
                  | Some (items, rest) => Some (PyList items, rest)
                  | None => None
                  end
            end
          else if startswith s (py "null") then Some (PyNone, skipn 4 s)
          else if startswith s (py "true") then Some (PyBool true, skipn 4 s)
          else if startswith s (py "false") then Some (PyBool false, skipn 5 s)
          else
            match match_number s with
            | Some r => Some r
            | None =>
                if startswith s (py "NaN") then Some (PyFloat FNaN, skipn 3 s)
                else if startswith s (py "Infinity")
                then Some (PyFloat (FInf false), skipn 8 s)
                else if startswith s (py "-Infinity")
                then Some (PyFloat (FInf true), skipn 9 s)
                else None
            end
      end
  end

(** The loop of [JSONArray]: values up to the closing bracket. *)
with scan_items (fuel : nat) (s : pystr) {struct fuel} : option (list pyval * pystr) :=
  match fuel with
  | O => None
  | S fuel' =>
      match scan_once fuel' s with
      | None => None
      | Some (v, s1) =>
          match skip_ws s1 with
          | [] => None
          | c :: s2 =>
              if (c =? 93)%N then Some ([v], s2)
              else if (c =? 44)%N then
                match scan_items fuel' (skip_ws s2) with
                | Some (vs, rest) => Some (v :: vs, rest)
                | None => None
                end
              else None
          end
      end
  end

(** The loop of [JSONObject]: pairs up to the closing brace. *)
with scan_pairs (fuel : nat) (s : pystr) {struct fuel}
    : option (list (pystr * pyval) * pystr) :=
  match fuel with
  | O => None
  | S fuel' =>
      match s with
      | [] => None
      | c :: s1 =>
          if negb (c =? c_quote)%N then None
          else
            match scanstring s1 with
            | None => None
            | Some (key, s2) =>
                match skip_ws s2 with
                | [] => None
                | c2 :: s3 =>
                    if negb (c2 =? 58)%N then None
                    else
                      match scan_once fuel' (skip_ws s3) with
                      | None => None
                      | Some (v, s4) =>
                          match skip_ws s4 with
                          | [] => None
                          | c3 :: s5 =>
                              if (c3 =? 125)%N then Some ([(key, v)], s5)
                              else if (c3 =? 44)%N then
                                match scan_pairs fuel' (skip_ws s5) with
                                | Some (kvs, rest) => Some ((key, v) :: kvs, rest)
                                | None => None
                                end
                              else None
                          end
                      end
                end
            end
      end
  end.

End JsonDecoder.
Export JsonDecoder.

(** [json.loads(s)]: leading white space, one value, trailing white
    space, nothing else. *)
Definition json_loads (s : pystr) : result pyval :=
  match scan_once (S (2 * length s)) (skip_ws s) with
  | Some (v, rest) =>
      match skip_ws rest with
      | [] => Ret v
      | _ :: _ => Raise JSONDecodeError
      end
  | None => Raise JSONDecodeError
  end.

(** *** Operators of the language on these values *)

Module PyOps.

(** [key in o] for a string [key]. *)
Definition contains_str (key : pystr) (o : pyval) : result bool :=
  match o with
  | PyDict d =>
      Ret (match dict_get d (KStr key) with Some _ => true | None => false end)
  | PyList l =>
      Ret (existsb (fun v => match v with
                             | PyStr s => pystr_eqb s key
                             | _ => false
                             end) l)
  | PyStr s => Ret (str_contains key s)
  | _ => Raise TypeError
  end.

(** [len(o)] *)
Definition py_len (o : pyval) : result Z :=
  match o with
  | PyStr s => Ret (Z.of_nat (length s))
  | PyList l => Ret (Z.of_nat (length l))
  | PyDict d => Ret (Z.of_nat (length d))
  | _ => Raise TypeError
  end.

(** [o[key]] for a string [key]. *)
Definition getitem_str (o : pyval) (key : pystr) : result pyval :=
  match o with
  | PyDict d =>
      match dict_get d (KStr key) with
      | Some v => Ret v
      | None => Raise (KeyError (KStr key))
      end
  | _ => Raise TypeError
  end.

(** [seq[i]] on a sequence: a negative index counts from the end. *)
Definition index {A} (l : list A) (i : Z) : option A :=
  let n := Z.of_nat (length l) in
  let j := (if i <? 0 then i + n else i)%Z in
  if ((0 <=? j) && (j <? n))%Z then nth_error l (Z.to_nat j) else None.

(** [o[i]] for an integer [i]. *)
Definition getitem_int (o : pyval) (i : Z) : result pyval :=
  match o with
  | PyList l =>
      match index l i with
      | Some v => Ret v
      | None => Raise IndexError
      end
  | PyStr s =>
      match index s i with
      | Some c => Ret (PyStr [c])
      | None => Raise IndexError
      end
  | PyDict d =>
      match dict_get d (KInt i) with
      | Some v => Ret v
      | None => Raise (KeyError (KInt i))
      end
  | _ => Raise TypeError
  end.

End PyOps.
Export PyOps.

(** ** Config store (lines 13-15, 96-111) *)

Module ConfigStore.

(** What the filesystem holds at [CONFIG_FILE]. *)
Inductive file_state : Type :=
| Missing
| Unreadable                 (* exists, but cannot be opened for reading *)
| Content (text : pystr).

(** [writable]: [os.makedirs(CONFIG_DIR, exist_ok=True)] and
    [open(CONFIG_FILE, "w")] succeed. *)
Record filesystem : Type := {
  writable : bool;
  config_file : file_state
}.

(** [os.path.exists(CONFIG_FILE)] *)
Definition path_exists (fs : filesystem) : bool :=
  match config_file fs with
  | Missing => false
  | _ => true
  end.

(** [open(CONFIG_FILE, "r")] followed by reading the whole file. *)
Definition open_read (fs : filesystem) : result pystr :=
  match config_file fs with
  | Content text => Ret text
  | _ => Raise OSError
  end.

(** [json.load(f)] *)
Definition json_load (text : pystr) : result pyval := json_loads text.

(** [load_config], lines 96-104. *)
Definition load_config (fs : filesystem) : result pyval :=
  if path_exists fs then
    try_except
      (text <- open_read fs ;; json_load text)
      (fun _ => Ret PyNone)
  else Ret PyNone.


End ConfigStore.
Export ConfigStore.

(** ** Credential store (lines 16-17, 114-160) *)

Module Keychain.

(** The login keychain as [/usr/bin/security] sees it: whether the
    tool can be started, whether the keychain answers, and the secret
    kept for the service and account of this program. *)
Record keychain : Type := {
  tool_present : bool;
  unlocked : bool;
  secret : option pystr
}.

Inductive security_command : Type :=
| find_generic_password                   (* -a ACCOUNT -s SERVICE -w *)
| delete_generic_password                 (* -a ACCOUNT -s SERVICE *)
| add_generic_password (w : pystr).       (* -a ACCOUNT -s SERVICE -w w -U *)

Definition with_secret (kc : keychain) (s : option pystr) : keychain :=
  {| tool_present := tool_present kc; unlocked := unlocked kc; secret := s |}.

(** [subprocess.run(["/usr/bin/security", ...], capture_output=True)]:
    the keychain afterwards, the return code and the standard output.
    With [-w], a found password is printed on a line of its own. *)
Definition security (cmd : security_command) (kc : keychain)
    : result (keychain * (Z * pystr)) :=
  if negb (tool_present kc) then Raise OSError
  else if negb (unlocked kc) then Ret (kc, (1%Z, []))
  else
    match cmd, secret kc with
    | find_generic_password, Some s => Ret (kc, (0%Z, s ++ nl))
    | find_generic_password, None => Ret (kc, (44%Z, []))
    | delete_generic_password, Some _ => Ret (with_secret kc None, (0%Z, []))
    | delete_generic_password, None => Ret (kc, (44%Z, []))
    | add_generic_password w, _ => Ret (with_secret kc (Some w), (0%Z, []))
    end.

(** [get_api_key_from_keychain], lines 114-132. *)
Definition get_api_key_from_keychain (kc : keychain) : option pystr :=
  match security find_generic_password kc with
  | Ret (_, (returncode, stdout)) =>
      if (returncode =? 0)%Z then Some (strip stdout) else None
  | Raise _ => None
  end.

(** [save_api_key_to_keychain], lines 135-160: the keychain afterwards
    and the returned flag. *)
Definition save_api_key_to_keychain (api_key : pystr) (kc : keychain)
    : result (keychain * bool) :=
  r1 <- security delete_generic_password kc ;;
  r2 <- security (add_generic_password api_key) (fst r1) ;;
  Ret (fst r2, (fst (snd r2) =? 0)%Z).

End Keychain.
Export Keychain.

(** ** API client (lines 163-202) *)

Module ApiClient.

Record Request : Type := {
  req_url : pystr;
  req_data : pystr;
  req_headers : list (pykey * pystr);
  req_method : pystr
}.

Definition max_chars : Z := 30000.

Definition truncation_marker : pystr :=
  nl ++ nl ++ py "[... truncated due to length ...]".

(** The truth value of [api_key], which is [None] or a string. *)
Definition truthy (api_key : option pystr) : bool :=
  match api_key with
  | Some (_ :: _) => true
  | _ => false
  end.

(** [f"{api_key}"] *)
Definition format_key (api_key : option pystr) : pystr :=
  match api_key with
  | Some key => key
  | None => py "None"
  end.

(** Lines 165-170. *)
Definition build_headers (api_key : option pystr) : list (pykey * pystr) :=
  let headers := [(KStr (py "Content-Type"), py "application/json")] in
  if truthy api_key
  then dict_set headers (KStr (py "Authorization")) (py "Bearer " ++ format_key api_key)
  else headers.

(** Lines 172-175. *)
Definition truncate_email (email_content : pystr) : pystr :=
  if (Z.of_nat (length email_content) >? max_chars)%Z
  then firstn (Z.to_nat max_chars) email_content ++ truncation_marker
  else email_content.

(** Lines 177-185. *)
Definition build_payload (model system_prompt email_content : pystr) : pyval :=
  let email_content := truncate_email email_content in
  PyDict
    [(KStr (py "model"), PyStr model);
     (KStr (py "messages"),
      PyList
        [PyDict [(KStr (py "role"), PyStr (py "system"));
                 (KStr (py "content"), PyStr system_prompt)];
         PyDict [(KStr (py "role"), PyStr (py "user"));
                 (KStr (py "content"), PyStr email_content)]]);
     (KStr (py "max_completion_tokens"), PyInt 256);
     (KStr (py "temperature"), PyFloat (FDec false 1 (-1)))].

(** Lines 165-189: the request handed to [urlopen]. *)
Definition build_request (endpoint model : pystr) (api_key : option pystr)
    (system_prompt email_content : pystr) : Request :=
  {| req_url := endpoint;
     req_data := json_dumps (build_payload model system_prompt email_content);
     req_headers := build_headers api_key;
     req_method := py "POST" |}.

(** Lines 193-197: what is returned from a decoded response body. *)
Definition extract_content (body : pystr) : result pyval :=
  result <- json_loads body ;;
  has_choices <- contains_str (py "choices") result ;;
  nonempty <-
    (if has_choices : bool then
       choices <- getitem_str result (py "choices") ;;
       n <- py_len choices ;;
       Ret (0 <? n)%Z
     else Ret false) ;;
  if nonempty : bool then
    choices <- getitem_str result (py "choices") ;;
    first <- getitem_int choices 0 ;;
    message <- getitem_str first (py "message") ;;
    getitem_str message (py "content")
  else Ret PyNone.

Section Network.

(** [urllib.request.urlopen(req, timeout=t)] followed by
    [response.read().decode("utf-8")]: the text of the response body,
    or the exception raised on the way. *)
Variable urlopen : Request -> Z -> result pystr.

(** [call_llm_api], lines 163-202. *)
Definition call_llm_api (endpoint model : pystr) (api_key : option pystr)
    (system_prompt email_content : pystr) : result pyval :=
  let req := build_request endpoint model api_key system_prompt email_content in
  try_except
    (body <- urlopen req 60 ;; extract_content body)
    (fun e =>
       match e with
       | HTTPError code fp =>
           let error_body := match fp with Some b => b | None => [] end in
           Raise (PyException (py "API error " ++ str_of_int code ++ py ": " ++ error_body))
       | URLError reason =>
           Raise (PyException (py "Connection error: " ++ reason))
       | _ => Raise e
       end).

End Network.

End ApiClient.
Export ApiClient.

(** ** Action emitter (lines 205-214) *)

Module ActionEmitter.

(** [print(x)] appends the text and a newline to standard output. *)
Definition print (text : pystr) (stdout : pystr) : pystr := stdout ++ text ++ nl.

(** [output_actions], lines 205-209. *)
Definition output_actions (actions : pyval) (stdout : pystr) : pystr :=
  let actions := match actions with PyNone => PyList [] | _ => actions end in
  print (json_dumps (PyDict [(KStr (py "actions"), actions)])) stdout.

(** [move_to_junk_action], lines 212-214. *)
Definition move_to_junk_action : pyval :=
  PyDict [(KStr (py "type"), PyStr (py "moveMessage"));
          (KStr (py "mailboxType"), PyStr (py "junk"))].

End ActionEmitter.
Export ActionEmitter.

(** ** Vocabulary of the specification *)

Module Spec.

(** What [escape_for_applescript] does to one character. *)
Definition escape_one (c : N) : pystr :=
  if (c =? c_backslash)%N then [c_backslash; c_backslash]
  else if (c =? c_quote)%N then [c_backslash; c_quote]
  else [c].

(** [payload["messages"][1]["content"]]: the content of the user-role
    message of a request body. *)
Definition payload_user_content (payload : pyval) : result pyval :=
  messages <- getitem_str payload (py "messages") ;;
  user <- getitem_int messages 1 ;;
  getitem_str user (py "content").

(** [headers.get("Authorization")] *)
Definition authorization (req : Request) : option pystr :=
  dict_get (req_headers req) (KStr (py "Authorization")).

(** The string neither starts nor ends with white space. *)
Definition no_surrounding_space (s : pystr) : bool :=
  match s with
  | [] => true
  | c :: _ => negb (isspace c) && negb (isspace (last s c))
  end.




(** The exceptions that reading a response body can raise. *)
Definition is_lookup_or_decode_error (e : exn) : bool :=
  match e with
  | JSONDecodeError | TypeError | IndexError | KeyError _ => true
  | _ => false
  end.




(** A Unicode scalar value: a code point that is not a surrogate. *)
Definition scalar_value (c : N) : bool :=
  ((c <? 55296) || (57344 <=? c) && (c <? 1114112))%N.

Definition valid_str (s : pystr) : bool := forallb scalar_value s.

(** No two keys of the list are equal. *)
Fixpoint distinct_keys (ks : list pykey) : bool :=
  match ks with
  | [] => true
  | k :: ks' => negb (existsb (key_eqb k) ks') && distinct_keys ks'
  end.

(** The values that JSON text represents as they are: [None],
    booleans, integers, strings of scalar values, lists of such
    values, and mappings from such strings to such values.  Floats are
    left out (the model keeps them as decimals, and NaN differs from
    itself).  A [dict] never holds two equal keys. *)
Fixpoint json_like (v : pyval) : bool :=
  match v with
  | PyNone | PyBool _ | PyInt _ => true
  | PyFloat _ => false
  | PyStr s => valid_str s
  | PyList l => forallb json_like l
  | PyDict d =>
      forallb (fun kv =>
                 match fst kv with
                 | KStr k => valid_str k
                 | _ => false
                 end && json_like (snd kv)) d
      && distinct_keys (map fst d)
  end.

(** Fuel that lets [scan_once] read the text of a value. *)
Fixpoint cost (v : pyval) : nat :=
  match v with
  | PyList l => S (fold_right (fun x acc => S (cost x + acc)) 0 l)
  | PyDict d => S (fold_right (fun kv acc => S (cost (snd kv) + acc)) 0 d)
  | _ => 1
  end.

(** The text after a number does not continue it. *)
Definition number_stop (rest : pystr) : bool :=
  match rest with
  | [] => true
  | c :: _ =>
      negb (is_digit c || (c =? 46) || (c =? 101) || (c =? 69))%N
  end.

(** The characters a JSON value can start with, floats apart. *)
Definition value_head (c : N) : bool :=
  (is_digit c || (c =? 45) || (c =? c_quote) || (c =? 91) || (c =? 123)
   || (c =? 110) || (c =? 116) || (c =? 102))%N.

Definition all_ws (w : pystr) : bool := forallb is_ws w.

Definition items_cost (l : list pyval) : nat :=
  fold_right (fun x acc => S (cost x + acc)) 0%nat l.

Definition pairs_cost (d : list (pykey * pyval)) : nat :=
  fold_right (fun kv acc => S (cost (snd kv) + acc)) 0%nat d.

(** The text of one entry of a mapping. *)
Definition pair_text (indent : option nat) (level : nat) (kv : pykey * pyval) : pystr :=
  encode_basestring_ascii (key_str (fst kv)) ++ key_separator ++
  encode indent level (snd kv).

(** The decoder reads the text of [v] back as [v], whatever the
    indentation and whatever follows the text. *)
Definition reads_back (v : pyval) : Prop :=
  forall indent level fuel rest,
    (cost v <= fuel)%nat -> number_stop rest = true ->
    scan_once fuel (encode indent level v ++ rest) = Some (v, rest).

(** The text of [v] starts with a character that starts a JSON value. *)
Definition head_ok (v : pyval) : Prop :=
  forall indent level,
    exists c t, encode indent level v = c :: t /\ value_head c = true.

Definition string_key (kv : pykey * pyval) : bool :=
  match fst kv with
  | KStr k => valid_str k
  | _ => false
  end.

(** The string literals of a script, in the order in which
    AppleScript reads them.  [cur] is [None] outside a literal; inside
    one it holds the content read so far, last character first. *)
Fixpoint script_literals_from (cur : option pystr) (s : pystr) : option (list pystr) :=
  match s with
  | [] =>
      match cur with
      | None => Some []
      | Some _ => None
      end
  | c :: rest =>
      match cur with
      | None =>
          if (c =? c_quote)%N then script_literals_from (Some []) rest
          else script_literals_from None rest
      | Some content =>
          if (c =? c_quote)%N then
            option_map (cons (rev content)) (script_literals_from None rest)
          else if (c =? c_backslash)%N then
            match rest with
            | [] => None
            | e :: rest' => script_literals_from (Some (escaped_char e :: content)) rest'
            end
          else script_literals_from (Some (c :: content)) rest
      end
  end.

Definition script_literals (script : pystr) : option (list pystr) :=
  script_literals_from None script.

(** A backslash or a double quote. *)
Definition special (c : N) : bool := ((c =? c_backslash) || (c =? c_quote))%N.

(** The string holds neither a backslash nor a double quote. *)
Definition plain (s : pystr) : bool := forallb (fun c => negb (special c)) s.

Definition no_quote (s : pystr) : bool := forallb (fun c => negb (c =? c_quote)%N) s.

(** A printable ASCII character. *)
Definition printable (c : N) : bool := ((32 <=? c) && (c <=? 126))%N.

(** The fuel [cost v] is within what [json_loads] gives itself for
    the text of [v]. *)
Definition cost_ok (v : pyval) : Prop :=
  forall indent level, (cost v + 1 <= 2 * length (encode indent level v))%nat.

(** All that [json_loads] needs to read the text of [v] back. *)
Definition readable (v : pyval) : Prop := head_ok v /\ reads_back v /\ cost_ok v.

(** [x == "choices"] for a value [x]. *)
Definition is_choices (v : pyval) : bool :=
  match v with
  | PyStr s => pystr_eqb s (py "choices")
  | _ => false
  end.

(** What lines 195-197 do with a response that is not a mapping. *)
Definition non_mapping_outcome (response : pyval) : option (result pyval) :=
  match response with
  | PyDict _ => None
  | PyList l => Some (if existsb is_choices l then Raise TypeError else Ret PyNone)
  | PyStr s =>
      Some (if str_contains (py "choices") s then Raise TypeError else Ret PyNone)
  | _ => Some (Raise TypeError)
  end.


End Spec.
Export Spec.

(** * Properties *)

Arguments py : simpl never.

(** ** Strings *)

Lemma pystr_eqb_eq (a b : pystr) : pystr_eqb a b = true <-> a = b.
Proof.
  revert b. induction a as [|x a IH]; intros [|y b]; simpl; try easy.
  rewrite andb_true_iff, N.eqb_eq, IH. split.
  - now intros [-> ->].
  - intros H. now inversion H.
Qed.

Lemma startswith_app (p s : pystr) : startswith (p ++ s) p = true.
Proof.
  induction p as [|c p IH]; simpl; [reflexivity|].
  now rewrite N.eqb_refl, IH.
Qed.

Lemma endswith_app (s suffix : pystr) : endswith (s ++ suffix) suffix = true.
Proof.
  unfold endswith. rewrite rev_app_distr. apply startswith_app.
Qed.

(** ** Dialog layer *)

Lemma replace_char_app (old : N) (new a b : pystr) :
  replace_char old new (a ++ b) = replace_char old new a ++ replace_char old new b.
Proof. unfold replace_char. apply flat_map_app. Qed.

(** The two passes of [escape_for_applescript] amount to one pass that
    rewrites each character on its own. *)
Lemma escape_for_applescript_flat_map (s : pystr) :
  escape_for_applescript s = flat_map escape_one s.
Proof.
  unfold escape_for_applescript.
  induction s as [|c s IH]; [reflexivity|].
  change (replace_char c_backslash [c_backslash; c_backslash] (c :: s))
    with ((if (c =? c_backslash)%N then [c_backslash; c_backslash] else [c]) ++
          replace_char c_backslash [c_backslash; c_backslash] s).
  rewrite replace_char_app, IH. simpl flat_map. f_equal.
  unfold escape_one.
  destruct (N.eqb_spec c c_backslash) as [->|Hb]; [reflexivity|].
  unfold replace_char. simpl.
  destruct (N.eqb_spec c c_quote); reflexivity.
Qed.

Lemma escape_for_applescript_cons (c : N) (s : pystr) :
  escape_for_applescript (c :: s) = escape_one c ++ escape_for_applescript s.
Proof. now rewrite !escape_for_applescript_flat_map. Qed.

Lemma unescape_escape (s : pystr) :
  applescript_unescape (escape_for_applescript s) = s.
Proof.
  induction s as [|c s IH]; [reflexivity|].
  rewrite escape_for_applescript_cons. unfold escape_one.
  destruct (N.eqb_spec c c_backslash) as [->|Hb].
  - simpl. now rewrite IH.
  - destruct (N.eqb_spec c c_quote) as [->|Hq].
    + simpl. now rewrite IH.
    + simpl. destruct (N.eqb_spec c c_backslash); [contradiction|].
      now rewrite IH.
Qed.

(** An escaped string, placed between quotes, is read back as one
    literal with the original content: the closing quote of the
    template is the one that ends it. *)
Lemma literal_escape (s rest : pystr) :
  applescript_literal (escape_for_applescript s ++ c_quote :: rest) = Some (s, rest).
Proof.
  induction s as [|c s IH]; [reflexivity|].
  rewrite escape_for_applescript_cons. unfold escape_one.
  destruct (N.eqb_spec c c_backslash) as [->|Hb].
  - simpl. now rewrite IH.
  - destruct (N.eqb_spec c c_quote) as [->|Hq].
    + simpl. now rewrite IH.
    + simpl. destruct (N.eqb_spec c c_quote); [contradiction|].
      destruct (N.eqb_spec c c_backslash); [contradiction|].
      now rewrite IH.
Qed.

Lemma escape_for_applescript_injective (s s' : pystr) :
  escape_for_applescript s = escape_for_applescript s' -> s = s'.
Proof.
  intros H. rewrite <- (unescape_escape s), <- (unescape_escape s'). now rewrite H.
Qed.

(** C8: escaping a string for AppleScript and then undoing the
    backslash escapes the way the interpreter reads a string literal
    gives the original string back, for every string. *)
Theorem escape_then_unescape_is_identity (s : pystr) :
  applescript_unescape (escape_for_applescript s) = s.
Proof. apply unescape_escape. Qed.

(** [show_alert] and [show_dialog] escape every string they embed. *)
Lemma show_alert_script_escapes (message title : pystr) :
  show_alert_script message title =
  alert_template (escape_for_applescript message) (escape_for_applescript title).
Proof. reflexivity. Qed.

Lemma show_dialog_script_escapes (message default_answer title : pystr) (hidden : bool) :
  show_dialog_script message default_answer hidden title =
  dialog_template (escape_for_applescript message)
    (escape_for_applescript default_answer)
    (if hidden then py "with hidden answer" else [])
    (escape_for_applescript title).
Proof. reflexivity. Qed.

(** C2 (fails on the code): [show_threat_dialog] embeds [threat_type]
    as it is, while [reason] and [title] are escaped.  With a threat
    type made of one double-quote character, the string literal that
    should hold the whole dialog text ends at once and is empty; the
    reason and the rest of the text are then read as script. *)
Theorem show_threat_dialog_embeds_threat_type_raw :
  let threat_type := [c_quote] in
  let reason := py "r" in
  let title := py "t" in
  exists before after,
    show_threat_dialog_script threat_type reason title =
      before ++ c_quote :: threat_type ++ after /\
    before = nl ++ py "    set iconPath to POSIX file " ++ q MAILMATE_ICON ++
             nl ++ py "    tell application " ++ q (py "System Events") ++
             nl ++ py "        set dialogResult to display dialog " /\
    applescript_literal (threat_type ++ after) = Some ([], after) /\
    applescript_literal (escape_for_applescript threat_type ++ after) <>
      Some ([], after).
Proof.
  intros threat_type reason title.
  eexists. eexists.
  split; [|split; [reflexivity|]].
  - unfold show_threat_dialog_script, threat_template, q.
    rewrite <- !app_assoc. simpl app at 1.
    repeat (rewrite <- app_comm_cons || rewrite <- app_assoc).
    reflexivity.
  - split; [reflexivity|]. vm_compute. discriminate.
Qed.

(** ** API client: the request *)

Lemma truncate_email_long (s : pystr) :
  (Z.of_nat (length s) > max_chars)%Z ->
  truncate_email s = firstn (Z.to_nat max_chars) s ++ truncation_marker.
Proof.
  intros H. unfold truncate_email.
  destruct (Z.gtb_spec (Z.of_nat (length s)) max_chars); [reflexivity|lia].
Qed.

Lemma truncate_email_short (s : pystr) :
  (Z.of_nat (length s) <= max_chars)%Z -> truncate_email s = s.
Proof.
  intros H. unfold truncate_email.
  destruct (Z.gtb_spec (Z.of_nat (length s)) max_chars); [lia|reflexivity].
Qed.

Lemma payload_user_content_build (model system_prompt email_content : pystr) :
  payload_user_content (build_payload model system_prompt email_content) =
  Ret (PyStr (truncate_email email_content)).
Proof.
  unfold build_payload. generalize (truncate_email email_content). intros content.
  reflexivity.
Qed.

(** C3: the content of the user message in the request body is the
    email content itself when that has at most 30,000 characters;
    when it is longer, the content is its first 30,000 characters
    followed by the truncation marker, so its length is 30,000 plus
    the length of the marker and it ends with the marker. *)
Theorem request_content_is_truncated_email
    (endpoint model : pystr) (api_key : option pystr)
    (system_prompt email_content : pystr) :
  let req := build_request endpoint model api_key system_prompt email_content in
  let payload := build_payload model system_prompt email_content in
  exists content,
    req_data req = json_dumps payload /\
    payload_user_content payload = Ret (PyStr content) /\
    ((Z.of_nat (length email_content) > 30000)%Z ->
       Z.of_nat (length content) = (30000 + Z.of_nat (length truncation_marker))%Z /\
       endswith content truncation_marker = true /\
       content = firstn (Z.to_nat 30000) email_content ++ truncation_marker) /\
    ((Z.of_nat (length email_content) <= 30000)%Z -> content = email_content).
Proof.
  intros req payload. exists (truncate_email email_content).
  split; [reflexivity|]. split; [apply payload_user_content_build|]. split.
  - intros Hlong. rewrite (truncate_email_long email_content Hlong).
    change max_chars with 30000%Z.
    split; [|split; [apply endswith_app|reflexivity]].
    rewrite length_app, length_firstn. lia.
  - apply truncate_email_short.
Qed.

(** A long email for the witness: 30,001 times the letter a. *)
Lemma request_content_is_truncated_email_witness :
  let email := repeat 97%N (Z.to_nat 30001) in
  exists content,
    payload_user_content (build_payload (py "m") (py "s") email) = Ret (PyStr content) /\
    Z.of_nat (length content) = 30035%Z /\
    endswith content truncation_marker = true.
Proof.
  intros email.
  destruct (request_content_is_truncated_email (py "e") (py "m") None (py "s") email)
    as [content [_ [Hc [Hlong _]]]].
  exists content. split; [exact Hc|].
  assert (Hlen : (Z.of_nat (length email) > 30000)%Z).
  { unfold email. rewrite repeat_length. vm_compute. reflexivity. }
  destruct (Hlong Hlen) as [H1 [H2 _]]. split; [|exact H2].
  rewrite H1. reflexivity.
Defined.

(** C5: the request body is the JSON text of a mapping with exactly
    the four entries model, messages, max_completion_tokens (256) and
    temperature (0.1); messages holds exactly two messages, the system
    prompt and then the (truncated) email content with the user role.
    The request carries the header Authorization: Bearer key when a
    key is given (a non-empty string) and no Authorization header
    when there is none ([None] or the empty string). *)
Theorem request_body_and_authorization
    (endpoint model : pystr) (api_key : option pystr)
    (system_prompt email_content : pystr) :
  let req := build_request endpoint model api_key system_prompt email_content in
  let payload := build_payload model system_prompt email_content in
  req_data req = json_dumps payload /\
  payload =
    PyDict
      [(KStr (py "model"), PyStr model);
       (KStr (py "messages"),
        PyList
          [PyDict [(KStr (py "role"), PyStr (py "system"));
                   (KStr (py "content"), PyStr system_prompt)];
           PyDict [(KStr (py "role"), PyStr (py "user"));
                   (KStr (py "content"), PyStr (truncate_email email_content))]]);
       (KStr (py "max_completion_tokens"), PyInt 256);
       (KStr (py "temperature"), PyFloat (FDec false 1 (-1)))] /\
  (exists sys user,
     getitem_str payload (py "messages") = Ret (PyList [sys; user]) /\
     getitem_str sys (py "role") = Ret (PyStr (py "system")) /\
     getitem_str sys (py "content") = Ret (PyStr system_prompt) /\
     getitem_str user (py "role") = Ret (PyStr (py "user")) /\
     getitem_str user (py "content") = Ret (PyStr (truncate_email email_content))) /\
  getitem_str payload (py "model") = Ret (PyStr model) /\
  getitem_str payload (py "max_completion_tokens") = Ret (PyInt 256) /\
  getitem_str payload (py "temperature") = Ret (PyFloat (FDec false 1 (-1))) /\
  floatstr (FDec false 1 (-1)) = py "0.1" /\
  authorization req =
    match api_key with
    | Some (c :: key) => Some (py "Bearer " ++ c :: key)
    | Some [] | None => None
    end.
Proof.
  intros req payload. subst req payload.
  split; [reflexivity|].
  assert (Hauth : authorization
            (build_request endpoint model api_key system_prompt email_content) =
          match api_key with
          | Some (c :: key) => Some (py "Bearer " ++ c :: key)
          | Some [] | None => None
          end) by (destruct api_key as [[|c key]|]; reflexivity).
  rewrite Hauth. clear Hauth. unfold build_payload.
  generalize (truncate_email email_content). intros content.
  split; [reflexivity|]. split.
  { eexists. eexists. repeat split; reflexivity. }
  repeat split; reflexivity.
Qed.

(** ** Action emitter *)

(** C9: with no argument the emitter prints the line
    [{"actions": []}]; with a list holding one move-to-junk action it
    prints [{"actions": [{"type": "moveMessage", "mailboxType": "junk"}]}]. *)
Theorem output_actions_prints_envelope (stdout : pystr) :
  output_actions PyNone stdout =
    stdout ++ (py "{" ++ q (py "actions") ++ py ": []}") ++ nl /\
  output_actions (PyList [move_to_junk_action]) stdout =
    stdout ++ (py "{" ++ q (py "actions") ++ py ": [{" ++
               q (py "type") ++ py ": " ++ q (py "moveMessage") ++ py ", " ++
               q (py "mailboxType") ++ py ": " ++ q (py "junk") ++ py "}]}") ++ nl.
Proof.
  unfold output_actions, print. split; f_equal; f_equal; vm_compute; reflexivity.
Qed.

(** ** API client: the response *)




Lemma bind_raise {A B} (m : result A) (k : A -> result B) (e : exn) :
  bind m k = Raise e ->
  m = Raise e \/ exists a, m = Ret a /\ k a = Raise e.
Proof.
  destruct m as [a|e']; simpl; intros H.
  - right. now exists a.
  - left. congruence.
Qed.

Lemma getitem_str_raise (o : pyval) (key : pystr) (e : exn) :
  getitem_str o key = Raise e -> is_lookup_or_decode_error e = true.
Proof.
  destruct o; simpl; try (intros [= <-]; reflexivity).
  destruct (dict_get d (KStr key)); intros [= <-]; reflexivity.
Qed.

Lemma getitem_int_raise (o : pyval) (i : Z) (e : exn) :
  getitem_int o i = Raise e -> is_lookup_or_decode_error e = true.
Proof.
  destruct o; simpl; try (intros [= <-]; reflexivity).
  - destruct (index s i); intros [= <-]; reflexivity.
  - destruct (index l i); intros [= <-]; reflexivity.
  - destruct (dict_get d (KInt i)); intros [= <-]; reflexivity.
Qed.

Lemma py_len_raise (o : pyval) (e : exn) :
  py_len o = Raise e -> is_lookup_or_decode_error e = true.
Proof. destruct o; simpl; intros [= <-]; reflexivity. Qed.

Lemma contains_str_raise (key : pystr) (o : pyval) (e : exn) :
  contains_str key o = Raise e -> is_lookup_or_decode_error e = true.
Proof. destruct o; simpl; intros [= <-]; reflexivity. Qed.

Lemma json_loads_raise (s : pystr) (e : exn) :
  json_loads s = Raise e -> is_lookup_or_decode_error e = true.
Proof.
  unfold json_loads.
  destruct (scan_once _ _) as [[v rest]|]; [destruct (skip_ws rest)|];
    intros [= <-]; reflexivity.
Qed.

Local Ltac raise_step H :=
  apply bind_raise in H; destruct H as [H|[? [_ H]]];
  [ first [ apply getitem_str_raise in H | apply getitem_int_raise in H
          | apply py_len_raise in H | apply contains_str_raise in H
          | apply json_loads_raise in H ]; exact H | ].

(** Whatever [extract_content] raises is a decoding or a lookup error. *)
Lemma extract_content_raise (body : pystr) (e : exn) :
  extract_content body = Raise e -> is_lookup_or_decode_error e = true.
Proof.
  unfold extract_content. intros H.
  raise_step H. raise_step H.
  apply bind_raise in H. destruct H as [H|[nonempty [_ H]]].
  - destruct x0; [|discriminate]. raise_step H. raise_step H. discriminate.
  - destruct nonempty; [|discriminate].
    raise_step H. raise_step H. raise_step H.
    now apply getitem_str_raise in H.
Qed.

Section Client.

Variable urlopen : Request -> Z -> result pystr.
Variables endpoint model : pystr.
Variable api_key : option pystr.
Variables system_prompt email_content : pystr.

Let req := build_request endpoint model api_key system_prompt email_content.
Let call := call_llm_api urlopen endpoint model api_key system_prompt email_content.

Lemma call_llm_api_on_response (body : pystr) :
  urlopen req 60 = Ret body ->
  call = match extract_content body with
         | Ret v => Ret v
         | Raise e => Raise e
         end.
Proof.
  intros Hopen. unfold call, call_llm_api. fold req. rewrite Hopen. simpl.
  destruct (extract_content body) as [v|e] eqn:He; [reflexivity|].
  apply extract_content_raise in He. simpl. destruct e; try discriminate; reflexivity.
Qed.



End Client.





(** ** Config store: loading *)

(** C7: [load_config] never raises.  It returns the parsed value when
    the file exists, can be read and holds valid JSON, and [None] (no
    configuration) when the file is missing, unreadable or malformed. *)
Theorem load_config_never_raises (fs : filesystem) :
  exists r,
    load_config fs = Ret r /\
    match config_file fs with
    | Missing | Unreadable => r = PyNone
    | Content text =>
        match json_loads text with
        | Ret config => r = config
        | Raise _ => r = PyNone
        end
    end.
Proof.
  unfold load_config, path_exists, open_read, json_load.
  destruct (config_file fs) as [| |text]; simpl.
  - now exists PyNone.
  - now exists PyNone.
  - destruct (json_loads text) as [config|e]; simpl.
    + now exists config.
    + now exists PyNone.
Qed.

(** ** Credential store *)

Lemma rstrip_app_nl (s : pystr) : rstrip (s ++ nl) = rstrip s.
Proof. unfold rstrip. rewrite rev_app_distr. reflexivity. Qed.

Lemma strip_app_nl (s : pystr) : strip (s ++ nl) = strip s.
Proof.
  unfold strip. induction s as [|c s IH]; [reflexivity|].
  simpl. destruct (isspace c); [exact IH|].
  apply (rstrip_app_nl (c :: s)).
Qed.

Lemma lstrip_length (s : pystr) : (length (lstrip s) <= length s)%nat.
Proof.
  induction s as [|c s IH]; simpl; [lia|].
  destruct (isspace c); simpl; lia.
Qed.

Lemma rstrip_length (s : pystr) : (length (rstrip s) <= length s)%nat.
Proof.
  unfold rstrip. rewrite length_rev.
  pose proof (lstrip_length (rev s)) as H. now rewrite length_rev in H.
Qed.

Lemma lstrip_fixed (s : pystr) :
  lstrip s = s <-> match s with [] => True | c :: _ => isspace c = false end.
Proof.
  destruct s as [|c s]; simpl; [tauto|].
  destruct (isspace c); split; try easy.
  intros H. pose proof (lstrip_length s) as Hl. rewrite H in Hl. simpl in Hl. lia.
Qed.

Lemma rev_last (s : pystr) (c d : N) :
  rev (c :: s) = last (c :: s) d :: rev (removelast (c :: s)).
Proof.
  rewrite (app_removelast_last d (l := c :: s)) at 1 by discriminate.
  rewrite rev_app_distr. reflexivity.
Qed.

Lemma rstrip_fixed (s : pystr) :
  rstrip s = s <->
  match s with [] => True | c :: _ => isspace (last s c) = false end.
Proof.
  unfold rstrip. split.
  - intros H. destruct s as [|c s]; [exact I|].
    assert (Hl : lstrip (rev (c :: s)) = rev (c :: s)).
    { rewrite <- H at 2. now rewrite rev_involutive. }
    apply lstrip_fixed in Hl. now rewrite (rev_last s c c) in Hl.
  - destruct s as [|c s]; [reflexivity|]. intros H.
    assert (Hl : lstrip (rev (c :: s)) = rev (c :: s)).
    { apply lstrip_fixed. now rewrite (rev_last s c c). }
    rewrite Hl. apply rev_involutive.
Qed.

(** [strip] leaves a string unchanged exactly when the string neither
    starts nor ends with white space. *)
Lemma strip_fixed (s : pystr) : strip s = s <-> no_surrounding_space s = true.
Proof.
  unfold strip, no_surrounding_space. destruct s as [|c s]; [easy|].
  rewrite andb_true_iff, !negb_true_iff. split.
  - intros H.
    assert (Hl : lstrip (c :: s) = c :: s).
    { apply lstrip_fixed. simpl. destruct (isspace c) eqn:Hc; [|reflexivity].
      exfalso. simpl in H. rewrite Hc in H.
      pose proof (rstrip_length (lstrip s)) as H1.
      pose proof (lstrip_length s) as H2.
      rewrite H in H1. simpl in H1. lia. }
    rewrite Hl in H. split.
    + now apply (lstrip_fixed (c :: s)).
    + now apply (rstrip_fixed (c :: s)).
  - intros [Hc Hlast].
    assert (Hl : lstrip (c :: s) = c :: s) by now apply (lstrip_fixed (c :: s)).
    rewrite Hl. now apply (rstrip_fixed (c :: s)).
Qed.

Lemma get_after_save (api_key : pystr) (kc kc' : keychain) :
  save_api_key_to_keychain api_key kc = Ret (kc', true) ->
  get_api_key_from_keychain kc' = Some (strip api_key).
Proof.
  unfold save_api_key_to_keychain, get_api_key_from_keychain, security.
  destruct kc as [present open stored].
  destruct present, open, stored; simpl; intros [= <-];
    simpl; now rewrite strip_app_nl.
Qed.

Lemma get_api_key_strips (kc : keychain) (s : pystr) :
  tool_present kc = true -> unlocked kc = true -> secret kc = Some s ->
  get_api_key_from_keychain kc = Some (strip s).
Proof.
  intros Hp Hu Hs. unfold get_api_key_from_keychain, security.
  rewrite Hp, Hu, Hs. simpl. now rewrite strip_app_nl.
Qed.

(** C10: [get_api_key_from_keychain] returns the stored secret with
    the white space at both ends stripped.  So after a successful
    [save_api_key_to_keychain], reading the key back gives the saved
    key stripped; it is the saved key itself exactly when that key
    neither starts nor ends with white space. *)
Theorem saved_key_is_read_back_stripped (api_key : pystr) (kc kc' : keychain) :
  save_api_key_to_keychain api_key kc = Ret (kc', true) ->
  (forall kc0 s, tool_present kc0 = true -> unlocked kc0 = true ->
                 secret kc0 = Some s ->
                 get_api_key_from_keychain kc0 = Some (strip s)) /\
  secret kc' = Some api_key /\
  get_api_key_from_keychain kc' = Some (strip api_key) /\
  (get_api_key_from_keychain kc' = Some api_key <->
   no_surrounding_space api_key = true).
Proof.
  intros Hsave. rewrite (get_after_save api_key kc kc' Hsave).
  split; [exact get_api_key_strips|]. split; [|split; [reflexivity|]].
  - revert Hsave. unfold save_api_key_to_keychain, security.
    destruct kc as [present open stored].
    destruct present, open, stored; simpl; intros [= <-]; reflexivity.
  - rewrite <- strip_fixed. split; congruence.
Qed.

(** A key with a trailing newline, saved into an empty keychain, comes
    back without the newline; the key abc123 comes back as it is. *)
Lemma saved_key_is_read_back_stripped_witness :
  let kc := {| tool_present := true; unlocked := true; secret := None |} in
  let kc' key := {| tool_present := true; unlocked := true; secret := Some key |} in
  get_api_key_from_keychain (kc' (py "abc123" ++ nl)) = Some (py "abc123") /\
  get_api_key_from_keychain (kc' (py "abc123")) = Some (py "abc123").
Proof.
  intros kc kc'. split.
  - exact (proj1 (proj2 (proj2 (saved_key_is_read_back_stripped
                           (py "abc123" ++ nl) kc (kc' (py "abc123" ++ nl)) eq_refl)))).
  - exact (proj1 (proj2 (proj2 (saved_key_is_read_back_stripped
                           (py "abc123") kc (kc' (py "abc123")) eq_refl)))).
Defined.

(** ** The json module: reading back what was written *)

Lemma pyval_nested_ind (P : pyval -> Prop) :
  P PyNone ->
  (forall b, P (PyBool b)) ->
  (forall z, P (PyInt z)) ->
  (forall f, P (PyFloat f)) ->
  (forall s, P (PyStr s)) ->
  (forall l, Forall P l -> P (PyList l)) ->
  (forall d, Forall (fun kv => P (snd kv)) d -> P (PyDict d)) ->
  forall v, P v.
Proof.
  intros HNone HBool HInt HFloat HStr HList HDict.
  fix IH 1. intros [|b|z|f|s|l|d].
  - exact HNone.
  - apply HBool.
  - apply HInt.
  - apply HFloat.
  - apply HStr.
  - apply HList. induction l as [|v l IHl]; constructor; [apply IH|exact IHl].
  - apply HDict. induction d as [|[k v] d IHd]; constructor; [apply IH|exact IHd].
Qed.

(** *** Hexadecimal escapes *)

Local Ltac n_arith := zify; Z.to_euclidean_division_equations; lia.

Local Ltac cmp_cases :=
  repeat match goal with
         | |- context [N.eqb ?a ?b] => destruct (N.eqb_spec a b)
         | |- context [N.leb ?a ?b] => destruct (N.leb_spec a b)
         | |- context [N.ltb ?a ?b] => destruct (N.ltb_spec a b)
         end.

Lemma hexval_hexdigit (d : N) : (d < 16)%N -> hexval (hexdigit d) = Some d.
Proof.
  intros Hd. unfold hexval, hexdigit, is_digit.
  destruct (N.ltb_spec d 10); repeat (cmp_cases; cbn [andb orb negb]);
    try lia; f_equal; lia.
Qed.

Lemma decode_hex4 (n : N) (rest : pystr) :
  (n < 65536)%N ->
  exists a b c d, hex4 n = [a; b; c; d] /\ decode_uXXXX a b c d = Some n.
Proof.
  intros Hn. unfold hex4. do 4 eexists. split; [reflexivity|].
  unfold decode_uXXXX.
  rewrite !hexval_hexdigit by n_arith. f_equal. n_arith.
Qed.

Lemma lor_high_low (a b n : N) :
  (b < 2 ^ n)%N -> N.lor (a * 2 ^ n) b = (a * 2 ^ n + b)%N.
Proof.
  intros Hb.
  assert (Hland : N.land (a * 2 ^ n) b = 0%N).
  { apply N.bits_inj. intros i. rewrite N.land_spec, N.bits_0.
    destruct (N.lt_ge_cases i n) as [Hi|Hi].
    - now rewrite N.mul_pow2_bits_low.
    - rewrite <- (N.mod_small b (2 ^ n)) by exact Hb.
      rewrite N.mod_pow2_bits_high by exact Hi. apply andb_false_r. }
  rewrite <- (N.lxor_lor _ _ Hland). now rewrite (N.add_nocarry_lxor _ _ Hland).
Qed.

Lemma surrogate_pair (c : N) :
  (65536 <= c)%N -> (c < 1114112)%N ->
  let n := (c - 65536)%N in
  let s1 := N.lor 55296 (N.land (N.shiftr n 10) 1023) in
  let s2 := N.lor 56320 (N.land n 1023) in
  (s1 < 65536)%N /\ (s2 < 65536)%N /\
  is_high_surrogate s1 = true /\ is_low_surrogate s2 = true /\
  join_surrogates s1 s2 = c.
Proof.
  intros Hlo Hhi n s1 s2.
  assert (H1 : s1 = (55296 + n / 1024)%N).
  { unfold s1. rewrite N.shiftr_div_pow2.
    change 1023%N with (N.ones 10). rewrite N.land_ones.
    change 55296%N with (54 * 2 ^ 10)%N at 1.
    rewrite lor_high_low by (apply N.mod_lt; discriminate).
    change (2 ^ 10)%N with 1024%N. unfold n. n_arith. }
  assert (H2 : s2 = (56320 + n mod 1024)%N).
  { unfold s2. change 1023%N with (N.ones 10). rewrite N.land_ones.
    change 56320%N with (55 * 2 ^ 10)%N at 1.
    rewrite lor_high_low by (apply N.mod_lt; discriminate).
    reflexivity. }
  assert (Hq : (n / 1024 < 1024)%N) by (unfold n; n_arith).
  assert (Hr : (n mod 1024 < 1024)%N) by (apply N.mod_lt; discriminate).
  assert (Hn : (n + 65536 = c)%N) by (unfold n; lia).
  rewrite H1, H2. unfold is_high_surrogate, is_low_surrogate, join_surrogates.
  clearbody n. clear s1 s2 H1 H2.
  split; [n_arith|]. split; [n_arith|]. split; [|split].
  - apply andb_true_iff. split; apply N.leb_le; n_arith.
  - apply andb_true_iff. split; apply N.leb_le; n_arith.
  - replace (55296 + n / 1024 - 55296)%N with (n / 1024)%N by n_arith.
    replace (56320 + n mod 1024 - 56320)%N with (n mod 1024)%N by n_arith.
    rewrite N.shiftl_mul_pow2, lor_high_low by exact Hr.
    change (2 ^ 10)%N with 1024%N. n_arith.
Qed.

(** *** Strings *)

Lemma scanstring_plain (c : N) (t : pystr) :
  c <> c_quote -> c <> c_backslash -> (32 <= c)%N ->
  scanstring (c :: t) = push c (scanstring t).
Proof.
  intros Hq Hb Hc. cbn [scanstring].
  destruct (N.eqb_spec c c_quote); [contradiction|].
  destruct (N.eqb_spec c c_backslash); [contradiction|].
  destruct (N.ltb_spec c 32); [lia|reflexivity].
Qed.

Lemma scanstring_backslash (e ch : N) (t : pystr) :
  e <> c_u -> backslash_char e = Some ch ->
  scanstring (c_backslash :: e :: t) = push ch (scanstring t).
Proof.
  intros He Hch. cbn [scanstring].
  change (c_backslash =? c_quote)%N with false.
  change (c_backslash =? c_backslash)%N with true. cbn iota.
  destruct (N.eqb_spec e c_u); [contradiction|].
  now rewrite Hch.
Qed.

Lemma scanstring_u (a b c d uni : N) (t : pystr) :
  decode_uXXXX a b c d = Some uni -> is_high_surrogate uni = false ->
  scanstring (c_backslash :: c_u :: a :: b :: c :: d :: t) = push uni (scanstring t).
Proof.
  intros Hd Hh. cbn [scanstring].
  change (c_backslash =? c_quote)%N with false.
  change (c_backslash =? c_backslash)%N with true.
  change (c_u =? c_u)%N with true. cbn iota.
  now rewrite Hd, Hh.
Qed.

Lemma scanstring_pair (a b c d a2 b2 c2 d2 uni uni2 : N) (t : pystr) :
  decode_uXXXX a b c d = Some uni -> is_high_surrogate uni = true ->
  decode_uXXXX a2 b2 c2 d2 = Some uni2 -> is_low_surrogate uni2 = true ->
  scanstring (c_backslash :: c_u :: a :: b :: c :: d ::
              c_backslash :: c_u :: a2 :: b2 :: c2 :: d2 :: t)
  = push (join_surrogates uni uni2) (scanstring t).
Proof.
  intros Hd Hh Hd2 Hl. cbn [scanstring].
  change (c_backslash =? c_quote)%N with false.
  change (c_backslash =? c_backslash)%N with true.
  change (c_u =? c_u)%N with true. cbn iota.
  rewrite Hd, Hh. cbn [andb]. cbn iota.
  now rewrite Hd2, Hl.
Qed.

Lemma scalar_not_high_surrogate (c : N) :
  scalar_value c = true -> is_high_surrogate c = false.
Proof.
  unfold scalar_value, is_high_surrogate.
  repeat (cmp_cases; cbn [andb orb negb]); try discriminate; try reflexivity; lia.
Qed.

(** The decoder reads the escape of one character back as that
    character. *)
Lemma scanstring_escape_ascii (c : N) (t : pystr) :
  scalar_value c = true ->
  scanstring (escape_ascii c ++ t) = push c (scanstring t).
Proof.
  intros Hc. unfold escape_ascii.
  destruct (N.eqb_spec c c_quote) as [->|Hq].
  { now apply scanstring_backslash. }
  destruct (N.eqb_spec c c_backslash) as [->|Hb].
  { now apply scanstring_backslash. }
  destruct (N.eqb_spec c 10) as [->|H10].
  { now apply scanstring_backslash. }
  destruct (N.eqb_spec c 13) as [->|H13].
  { now apply scanstring_backslash. }
  destruct (N.eqb_spec c 9) as [->|H9].
  { now apply scanstring_backslash. }
  destruct (N.eqb_spec c 8) as [->|H8].
  { now apply scanstring_backslash. }
  destruct (N.eqb_spec c 12) as [->|H12].
  { now apply scanstring_backslash. }
  destruct ((32 <=? c) && (c <=? 126))%N eqn:Hprint.
  { apply andb_true_iff in Hprint. destruct Hprint as [Hlo _].
    apply N.leb_le in Hlo. now apply scanstring_plain. }
  destruct (N.ltb_spec c 65536) as [Hsmall|Hbig].
  - destruct (decode_hex4 c t Hsmall) as (a & b & c' & d & Hhex & Hdec).
    rewrite Hhex. apply (scanstring_u a b c' d c t Hdec).
    now apply scalar_not_high_surrogate.
  - assert (Hmax : (c < 1114112)%N).
    { unfold scalar_value in Hc.
      destruct (N.ltb_spec c 55296); [lia|].
      destruct (N.ltb_spec c 1114112); [assumption|].
      now rewrite andb_false_r in Hc. }
    pose proof (surrogate_pair c Hbig Hmax) as Hpair. cbv zeta in Hpair |- *.
    set (s1 := N.lor 55296 _) in *. set (s2 := N.lor 56320 _) in *.
    clearbody s1 s2.
    destruct Hpair as (Hs1 & Hs2 & Hhigh & Hlow & Hjoin).
    destruct (decode_hex4 s1 t Hs1) as (a & b & c' & d & Hhex & Hdec).
    destruct (decode_hex4 s2 t Hs2) as (a2 & b2 & c2 & d2 & Hhex2 & Hdec2).
    rewrite Hhex, Hhex2, <- Hjoin.
    apply (scanstring_pair a b c' d a2 b2 c2 d2 _ _ t Hdec Hhigh Hdec2 Hlow).
Qed.

Lemma scanstring_escaped (s rest : pystr) :
  valid_str s = true ->
  scanstring (flat_map escape_ascii s ++ c_quote :: rest) = Some (s, rest).
Proof.
  induction s as [|c s IH]; intros Hs.
  - reflexivity.
  - simpl in Hs. apply andb_true_iff in Hs. destruct Hs as [Hc Hs].
    cbn [flat_map]. rewrite <- app_assoc.
    rewrite (scanstring_escape_ascii c _ Hc), (IH Hs). reflexivity.
Qed.

(** A JSON string is read back as the string it was written from. *)
Lemma scan_once_string (fuel : nat) (s rest : pystr) :
  valid_str s = true ->
  scan_once (S fuel) (encode_basestring_ascii s ++ rest) = Some (PyStr s, rest).
Proof.
  intros Hs. unfold encode_basestring_ascii, q.
  cbn [app]. rewrite <- app_assoc. cbn [scan_once app].
  change (c_quote =? c_quote)%N with true. cbn iota.
  now rewrite (scanstring_escaped s rest Hs).
Qed.

(** *** Integers *)

Lemma digit_of_not_digit (c : N) : is_digit c = false -> digit_of c = None.
Proof.
  unfold is_digit. intros H.
  assert (Hc : (c < 48 \/ 57 < c)%N).
  { apply andb_false_iff in H. destruct H as [H|H]; apply N.leb_gt in H; lia. }
  unfold digit_of. cmp_cases; try reflexivity; lia.
Qed.

Lemma number_stop_not_digit (c : N) (t : pystr) :
  number_stop (c :: t) = true ->
  is_digit c = false /\ c <> 46%N /\ c <> 101%N /\ c <> 69%N.
Proof.
  unfold number_stop. rewrite negb_true_iff, !orb_false_iff.
  intros [[[Hd H46] H101] H69]. repeat split; trivial; now apply N.eqb_neq.
Qed.

Lemma read_digits_stop (rest : pystr) :
  number_stop rest = true -> read_digits rest = (Decimal.Nil, rest).
Proof.
  destruct rest as [|c t]; [reflexivity|]. intros H.
  apply number_stop_not_digit in H. destruct H as [Hd _].
  cbn [read_digits]. now rewrite (digit_of_not_digit c Hd).
Qed.

Lemma read_digits_uint_chars (u : Decimal.uint) (rest : pystr) :
  number_stop rest = true -> read_digits (uint_chars u ++ rest) = (u, rest).
Proof.
  intros Hrest.
  induction u; cbn [uint_chars app];
    [ now apply read_digits_stop
    | cbn [read_digits]; rewrite IHu; reflexivity .. ].
Qed.

Lemma read_frac_stop (rest : pystr) :
  number_stop rest = true -> read_frac rest = (None, rest).
Proof.
  destruct rest as [|c t]; [reflexivity|]. intros H.
  apply number_stop_not_digit in H. destruct H as (_ & H46 & _).
  unfold read_frac. now destruct (N.eqb_spec c 46).
Qed.

Lemma read_exp_stop (rest : pystr) :
  number_stop rest = true -> read_exp rest = (None, rest).
Proof.
  destruct rest as [|c t]; [reflexivity|]. intros H.
  apply number_stop_not_digit in H. destruct H as (_ & _ & H101 & H69).
  unfold read_exp.
  destruct (N.eqb_spec c 101); [contradiction|].
  now destruct (N.eqb_spec c 69).
Qed.

(** The decimal digits of a positive number start with a digit other
    than zero. *)
Lemma to_uint_head (p : positive) :
  exists c t, uint_chars (Pos.to_uint p) = c :: t /\
              is_digit c = true /\ c <> 48%N /\ c <> 45%N.
Proof.
  pose proof (DecimalPos.Unsigned.to_of (Pos.to_uint p)) as Hnorm.
  rewrite DecimalPos.Unsigned.of_to in Hnorm. cbn [N.to_uint] in Hnorm.
  pose proof (DecimalPos.Unsigned.to_uint_nonzero p) as Hnz.
  pose proof (DecimalFacts.nzhead_nonzero (Pos.to_uint p)) as Hhead.
  unfold Decimal.unorm in Hnorm.
  destruct (Decimal.nzhead (Pos.to_uint p)) eqn:Hnzh;
    try (rewrite Hnorm; cbn [uint_chars]; do 2 eexists;
         split; [reflexivity|]; repeat split; discriminate).
  - contradiction.
  - exfalso. now apply (Hhead u).
Qed.

Lemma read_integer_positive (p : positive) (rest : pystr) :
  number_stop rest = true ->
  read_integer (uint_chars (Pos.to_uint p) ++ rest) = Some (false, Pos.to_uint p, rest).
Proof.
  intros Hrest. unfold read_integer.
  pose proof (read_digits_uint_chars (Pos.to_uint p) rest Hrest) as Hread.
  destruct (to_uint_head p) as (c & t & Hc & Hd & H48 & H45).
  rewrite Hc in *. cbn [app] in *.
  destruct (N.eqb_spec c 45); [contradiction|].
  destruct (N.eqb_spec c 48); [contradiction|].
  rewrite Hd. now rewrite Hread.
Qed.

Lemma read_integer_negative (p : positive) (rest : pystr) :
  number_stop rest = true ->
  read_integer (45%N :: uint_chars (Pos.to_uint p) ++ rest)
  = Some (true, Pos.to_uint p, rest).
Proof.
  intros Hrest. unfold read_integer.
  pose proof (read_digits_uint_chars (Pos.to_uint p) rest Hrest) as Hread.
  destruct (to_uint_head p) as (c & t & Hc & Hd & H48 & H45).
  rewrite Hc in *. cbn [app] in *.
  change (45 =? 45)%N with true. cbn iota.
  destruct (N.eqb_spec c 48); [contradiction|].
  rewrite Hd. now rewrite Hread.
Qed.

Lemma of_uint_to_uint (p : positive) : Z.of_uint (Pos.to_uint p) = Z.pos p.
Proof.
  unfold Z.of_uint. now rewrite DecimalPos.Unsigned.of_to.
Qed.

(** The decimal text of an integer is read back as that integer. *)
Lemma match_number_str_of_int (z : Z) (rest : pystr) :
  number_stop rest = true ->
  match_number (str_of_int z ++ rest) = Some (PyInt z, rest).
Proof.
  intros Hrest. unfold match_number, str_of_int.
  destruct z as [|p|p]; cbn [Z.to_int].
  - cbn. now rewrite (read_frac_stop rest Hrest), (read_exp_stop rest Hrest).
  - rewrite (read_integer_positive p rest Hrest).
    rewrite (read_frac_stop rest Hrest), (read_exp_stop rest Hrest).
    now rewrite of_uint_to_uint.
  - cbn [app]. rewrite (read_integer_negative p rest Hrest).
    rewrite (read_frac_stop rest Hrest), (read_exp_stop rest Hrest).
    now rewrite of_uint_to_uint.
Qed.

Lemma str_of_int_head (z : Z) :
  exists c t, str_of_int z = c :: t /\ (is_digit c || (c =? 45)%N) = true.
Proof.
  unfold str_of_int. destruct z as [|p|p]; cbn [Z.to_int].
  - now exists 48%N, [].
  - destruct (to_uint_head p) as (c & t & Hc & Hd & _).
    exists c, t. split; [exact Hc|]. now rewrite Hd.
  - now exists 45%N, (uint_chars (Pos.to_uint p)).
Qed.

Lemma scan_once_number (fuel : nat) (c : N) (t : pystr) (r : pyval * pystr) :
  (is_digit c || (c =? 45)%N) = true ->
  match_number (c :: t) = Some r ->
  scan_once (S fuel) (c :: t) = Some r.
Proof.
  intros Hc Hnum. cbn [scan_once]. rewrite Hnum.
  unfold is_digit in Hc.
  assert (Hrange : (c = 45 \/ 48 <= c <= 57)%N).
  { apply orb_true_iff in Hc. destruct Hc as [Hc|Hc].
    - apply andb_true_iff in Hc. destruct Hc as [H1 H2].
      apply N.leb_le in H1, H2. lia.
    - apply N.eqb_eq in Hc. lia. }
  clear Hc Hnum.
  destruct (N.eqb_spec c c_quote) as [->|_]; [unfold c_quote in Hrange; lia|].
  destruct (N.eqb_spec c 123) as [->|_]; [lia|].
  destruct (N.eqb_spec c 91) as [->|_]; [lia|].
  assert (Hn : startswith (c :: t) (py "null") = false).
  { change (py "null") with (110%N :: py "ull"). cbn [startswith].
    destruct (N.eqb_spec 110 c); [lia|reflexivity]. }
  assert (Ht : startswith (c :: t) (py "true") = false).
  { change (py "true") with (116%N :: py "rue"). cbn [startswith].
    destruct (N.eqb_spec 116 c); [lia|reflexivity]. }
  assert (Hf : startswith (c :: t) (py "false") = false).
  { change (py "false") with (102%N :: py "alse"). cbn [startswith].
    destruct (N.eqb_spec 102 c); [lia|reflexivity]. }
  now rewrite Hn, Ht, Hf.
Qed.

Lemma scan_once_int (fuel : nat) (z : Z) (rest : pystr) :
  number_stop rest = true ->
  scan_once (S fuel) (str_of_int z ++ rest) = Some (PyInt z, rest).
Proof.
  intros Hrest. pose proof (match_number_str_of_int z rest Hrest) as Hnum.
  destruct (str_of_int_head z) as (c & t & Hz & Hc).
  rewrite Hz in *. now apply scan_once_number.
Qed.

(** *** White space and the first character of a value *)

Lemma skip_ws_app (w x : pystr) : all_ws w = true -> skip_ws (w ++ x) = skip_ws x.
Proof.
  induction w as [|c w IH]; [reflexivity|]. cbn [all_ws forallb].
  intros H. apply andb_true_iff in H. destruct H as [Hc Hw].
  cbn [app skip_ws]. rewrite Hc. now apply IH.
Qed.

Lemma skip_ws_head (c : N) (t : pystr) : is_ws c = false -> skip_ws (c :: t) = c :: t.
Proof. intros H. cbn [skip_ws]. now rewrite H. Qed.

Lemma all_ws_spaces (n : nat) : all_ws (repeat c_space n) = true.
Proof. induction n; [reflexivity|exact IHn]. Qed.

Lemma all_ws_newline_indent (indent : option nat) (level : nat) :
  all_ws (newline_indent indent level) = true.
Proof.
  destruct indent as [n|]; [|reflexivity].
  unfold newline_indent. cbn [nl app all_ws forallb]. apply all_ws_spaces.
Qed.

Lemma item_separator_shape (indent : option nat) :
  exists w, item_separator indent = 44%N :: w /\ all_ws w = true.
Proof.
  destruct indent; [now exists []|now exists [32%N]].
Qed.

Lemma value_head_facts (c : N) :
  value_head c = true ->
  is_ws c = false /\ c <> 93%N /\ c <> 125%N /\ c <> 44%N.
Proof.
  unfold value_head, is_digit, is_ws, c_quote. intros H.
  assert (Hc : (48 <= c <= 57 \/ c = 45 \/ c = 34 \/ c = 91 \/ c = 123
                \/ c = 110 \/ c = 116 \/ c = 102)%N).
  { revert H. repeat (cmp_cases; cbn [andb orb negb]); try discriminate; lia. }
  repeat split; try lia.
  repeat (cmp_cases; cbn [andb orb negb]); try reflexivity; lia.
Qed.

Lemma encode_list_cons (indent : option nat) (level : nat) (v : pyval) (l : list pyval) :
  encode indent level (PyList (v :: l)) =
  py "[" ++ newline_indent indent (S level) ++
  join (item_separator indent ++ newline_indent indent (S level))
       (map (encode indent (S level)) (v :: l)) ++
  newline_indent indent level ++ py "]".
Proof. reflexivity. Qed.

Lemma encode_dict_cons (indent : option nat) (level : nat) (kv : pykey * pyval)
    (d : list (pykey * pyval)) :
  encode indent level (PyDict (kv :: d)) =
  py "{" ++ newline_indent indent (S level) ++
  join (item_separator indent ++ newline_indent indent (S level))
       (map (pair_text indent (S level)) (kv :: d)) ++
  newline_indent indent level ++ py "}".
Proof. reflexivity. Qed.

Lemma encode_head (indent : option nat) (level : nat) (v : pyval) :
  json_like v = true ->
  exists c t, encode indent level v = c :: t /\ value_head c = true.
Proof.
  destruct v as [|[|]|z|f|s|[|v l]|[|kv d]]; intros Hv;
    try discriminate;
    try (do 2 eexists; split; [reflexivity|reflexivity]).
  destruct (str_of_int_head z) as (c & t & Hz & Hc).
  exists c, t. split; [exact Hz|].
  unfold value_head. rewrite !orb_true_iff in *. tauto.
Qed.

Lemma json_like_head_ok (v : pyval) : json_like v = true -> head_ok v.
Proof. intros Hv indent level. now apply encode_head. Qed.

Lemma skip_ws_encode (indent : option nat) (level : nat) (v : pyval) (w rest : pystr) :
  head_ok v -> all_ws w = true ->
  skip_ws (w ++ encode indent level v ++ rest) = encode indent level v ++ rest.
Proof.
  intros Hv Hw. rewrite (skip_ws_app w _ Hw).
  destruct (Hv indent level) as (c & t & He & Hc).
  rewrite He. apply skip_ws_head. now apply value_head_facts.
Qed.

Lemma skip_ws_space_encode (indent : option nat) (level : nat) (v : pyval) (rest : pystr) :
  head_ok v ->
  skip_ws (32%N :: encode indent level v ++ rest) = encode indent level v ++ rest.
Proof. intros Hv. exact (skip_ws_encode indent level v [32%N] rest Hv eq_refl). Qed.

Lemma cost_list (l : list pyval) : cost (PyList l) = S (items_cost l).
Proof. reflexivity. Qed.

Lemma cost_dict (d : list (pykey * pyval)) : cost (PyDict d) = S (pairs_cost d).
Proof. reflexivity. Qed.

(** The text that follows an item of a list or of a mapping: either
    the separator and more text, or the closing bracket. *)
Lemma number_stop_after_item (indent : option nat) (level : nat) (close : N) (x : pystr) :
  close = 93%N \/ close = 125%N ->
  number_stop (newline_indent indent level ++ close :: x) = true /\
  number_stop (item_separator indent ++ x) = true.
Proof.
  intros Hclose. split.
  - destruct indent; [reflexivity|]. cbn [newline_indent app].
    destruct Hclose as [-> | ->]; reflexivity.
  - destruct indent; reflexivity.
Qed.

(** *** Lists *)

Lemma join_cons (sep x : pystr) (xs : list pystr) :
  join sep (x :: xs) = x ++ match xs with [] => [] | _ :: _ => sep ++ join sep xs end.
Proof. reflexivity. Qed.

Lemma scan_items_join (indent : option nat) (level : nat) (l : list pyval) :
  Forall (fun v => head_ok v /\ reads_back v) l ->
  l <> [] ->
  forall fuel rest,
    (items_cost l <= fuel)%nat ->
    scan_items fuel
      (join (item_separator indent ++ newline_indent indent (S level))
            (map (encode indent (S level)) l) ++
       newline_indent indent level ++ 93%N :: rest)
    = Some (l, rest).
Proof.
  induction 1 as [|v l [Hv Hback] Hl IH]; [congruence|].
  intros _ fuel rest Hfuel. cbn [items_cost fold_right] in Hfuel.
  fold (items_cost l) in Hfuel.
  destruct fuel as [|fuel]; [lia|].
  cbn [map]. rewrite join_cons, <- app_assoc. cbn [scan_items].
  destruct (number_stop_after_item indent level 93 rest (or_introl eq_refl))
    as [Hstop_close _].
  destruct l as [|v' l'].
  - cbn [map app].
    rewrite (Hback indent (S level) fuel _ ltac:(lia) Hstop_close).
    rewrite (skip_ws_app _ _ (all_ws_newline_indent indent level)).
    rewrite skip_ws_head by reflexivity. reflexivity.
  - cbn [map] in IH |- *.
    set (more := join _ (_ :: map _ l')) in *.
    destruct (item_separator_shape indent) as (w & Hsep & Hw).
    rewrite <- !app_assoc.
    rewrite (Hback indent (S level) fuel _ ltac:(lia)) by
      (rewrite Hsep; reflexivity).
    rewrite Hsep. cbn [app]. rewrite skip_ws_head by reflexivity.
    change (44 =? 93)%N with false. change (44 =? 44)%N with true. cbn iota.
    assert (Hskip : forall x,
               skip_ws (w ++ newline_indent indent (S level) ++ more ++ x) = more ++ x).
    { intros x. rewrite (skip_ws_app _ _ Hw).
      unfold more. rewrite join_cons, <- app_assoc.
      inversion Hl as [|? ? [Hv' _] _]; subst.
      apply (skip_ws_encode indent (S level) v' _ _ Hv').
      apply all_ws_newline_indent. }
    rewrite Hskip.
    rewrite (IH ltac:(discriminate) fuel rest ltac:(lia)). reflexivity.
Qed.

Lemma scan_once_list (indent : option nat) (level : nat) (l : list pyval) :
  Forall (fun v => head_ok v /\ reads_back v) l ->
  forall fuel rest,
    (cost (PyList l) <= fuel)%nat ->
    scan_once fuel (encode indent level (PyList l) ++ rest) = Some (PyList l, rest).
Proof.
  intros Hl fuel rest Hfuel. rewrite cost_list in Hfuel.
  destruct fuel as [|fuel]; [lia|].
  destruct l as [|v l]; [reflexivity|].
  rewrite encode_list_cons.
  change (py "[") with [91%N]. change (py "]") with [93%N].
  cbn [app]. rewrite <- !app_assoc. cbn [scan_once app].
  change (91 =? c_quote)%N with false. change (91 =? 123)%N with false.
  change (91 =? 91)%N with true. cbn iota.
  rewrite (skip_ws_app _ _ (all_ws_newline_indent indent (S level))).
  pose proof (scan_items_join indent level (v :: l) Hl ltac:(discriminate)
                fuel rest ltac:(lia)) as Hitems.
  cbn [map] in Hitems |- *. rewrite join_cons, <- !app_assoc in Hitems |- *.
  inversion Hl as [|? ? [Hv _] _]; subst.
  destruct (Hv indent (S level)) as (c & t & He & Hc).
  rewrite He in Hitems |- *. cbn [app] in Hitems |- *.
  destruct (value_head_facts c Hc) as (Hws & H93 & _).
  rewrite skip_ws_head by exact Hws.
  destruct (N.eqb_spec c 93); [contradiction|].
  now rewrite Hitems.
Qed.

(** *** Mappings *)

Lemma pair_text_app (indent : option nat) (level : nat) (k : pystr) (v : pyval)
    (x : pystr) :
  pair_text indent level (KStr k, v) ++ x =
  c_quote :: flat_map escape_ascii k ++
  c_quote :: 58%N :: 32%N :: encode indent level v ++ x.
Proof.
  unfold pair_text, encode_basestring_ascii, q, key_separator. cbn [fst snd key_str].
  change (py ": ") with [58%N; 32%N].
  cbn [app]. rewrite <- !app_assoc. reflexivity.
Qed.

Lemma scan_pairs_join (indent : option nat) (level : nat) (d : list (pykey * pyval)) :
  Forall (fun kv => string_key kv = true /\ head_ok (snd kv) /\
                    reads_back (snd kv)) d ->
  d <> [] ->
  forall fuel rest,
    (pairs_cost d <= fuel)%nat ->
    scan_pairs fuel
      (join (item_separator indent ++ newline_indent indent (S level))
            (map (pair_text indent (S level)) d) ++
       newline_indent indent level ++ 125%N :: rest)
    = Some (map (fun kv => (key_str (fst kv), snd kv)) d, rest).
Proof.
  induction 1 as [|[k v] d (Hk & Hv & Hback) Hd IH]; [congruence|].
  intros _ fuel rest Hfuel. cbn [pairs_cost fold_right snd] in Hfuel.
  fold (pairs_cost d) in Hfuel. cbn [snd] in Hv, Hback.
  destruct fuel as [|fuel]; [lia|].
  unfold string_key in Hk. cbn [fst] in Hk.
  destruct k as [k| | |]; try discriminate.
  cbn [map fst snd key_str]. rewrite join_cons, <- app_assoc, pair_text_app.
  cbn [scan_pairs]. change (c_quote =? c_quote)%N with true. cbn [negb]. cbn iota.
  rewrite (scanstring_escaped k _ Hk).
  rewrite skip_ws_head by reflexivity.
  change (58 =? 58)%N with true. cbn [negb]. cbn iota.
  rewrite (skip_ws_space_encode indent (S level) v _ Hv).
  destruct (number_stop_after_item indent level 125 rest (or_intror eq_refl))
    as [Hstop_close _].
  destruct d as [|kv' d'].
  - cbn [map app].
    rewrite (Hback indent (S level) fuel _ ltac:(lia) Hstop_close).
    rewrite (skip_ws_app _ _ (all_ws_newline_indent indent level)).
    rewrite skip_ws_head by reflexivity. reflexivity.
  - cbn [map] in IH |- *.
    set (more := join _ (_ :: map _ d')) in *.
    destruct (item_separator_shape indent) as (w & Hsep & Hw).
    rewrite <- !app_assoc.
    rewrite (Hback indent (S level) fuel _ ltac:(lia)) by
      (rewrite Hsep; reflexivity).
    rewrite Hsep. cbn [app]. rewrite skip_ws_head by reflexivity.
    change (44 =? 125)%N with false. change (44 =? 44)%N with true. cbn iota.
    assert (Hskip : forall x,
               skip_ws (w ++ newline_indent indent (S level) ++ more ++ x) = more ++ x).
    { intros x. rewrite (skip_ws_app _ _ Hw).
      rewrite (skip_ws_app _ _ (all_ws_newline_indent indent (S level))).
      unfold more. rewrite join_cons, <- app_assoc.
      inversion Hd as [|? ? [Hk' _] _]; subst.
      destruct kv' as [[k'| | |] v']; try discriminate.
      rewrite pair_text_app. now apply skip_ws_head. }
    rewrite Hskip.
    rewrite (IH ltac:(discriminate) fuel rest ltac:(lia)). reflexivity.
Qed.

Lemma dict_set_fresh (acc : list (pykey * pyval)) (k : pykey) (v : pyval) :
  (forall k', In k' (map fst acc) -> key_eqb k' k = false) ->
  dict_set acc k v = acc ++ [(k, v)].
Proof.
  induction acc as [|[k0 v0] acc IH]; intros Hfresh; [reflexivity|].
  cbn [dict_set app]. rewrite (Hfresh k0) by (left; reflexivity).
  f_equal. apply IH. intros k' Hin. apply Hfresh. now right.
Qed.

Lemma existsb_false_In {A} (f : A -> bool) (l : list A) (x : A) :
  existsb f l = false -> In x l -> f x = false.
Proof.
  intros H Hin. destruct (f x) eqn:Hf; [|reflexivity].
  rewrite <- H. symmetry. apply existsb_exists. now exists x.
Qed.

Lemma fold_dict_set (d acc : list (pykey * pyval)) :
  distinct_keys (map fst d) = true ->
  (forall k' k, In k' (map fst acc) -> In k (map fst d) -> key_eqb k' k = false) ->
  fold_left (fun a kv => dict_set a (fst kv) (snd kv)) d acc = acc ++ d.
Proof.
  revert acc. induction d as [|[k v] d IH]; intros acc Hd Hacc.
  - now rewrite app_nil_r.
  - cbn [map fst distinct_keys] in Hd. apply andb_true_iff in Hd.
    destruct Hd as [Hk Hd]. apply negb_true_iff in Hk.
    cbn [fold_left fst snd].
    rewrite dict_set_fresh by (intros k' Hin; apply Hacc; [exact Hin|now left]).
    rewrite IH; [now rewrite <- app_assoc|exact Hd|].
    intros k' k'' Hin Hin'. rewrite map_app in Hin. apply in_app_or in Hin.
    destruct Hin as [Hin|[<-|[]]].
    + apply Hacc; [exact Hin|now right].
    + now apply (existsb_false_In _ _ _ Hk).
Qed.

(** Pairs with distinct string keys build the mapping they were
    written from. *)
Lemma dict_of_pairs_keys (d : list (pykey * pyval)) :
  forallb string_key d = true ->
  distinct_keys (map fst d) = true ->
  dict_of_pairs (map (fun kv => (key_str (fst kv), snd kv)) d) = d.
Proof.
  intros Hkeys Hd. unfold dict_of_pairs.
  rewrite <- (fold_dict_set d [] Hd) at 2 by (intros ? ? []).
  generalize (@nil (pykey * pyval)). clear Hd.
  induction d as [|[k v] d IH]; intros acc; [reflexivity|].
  cbn [forallb] in Hkeys. apply andb_true_iff in Hkeys. destruct Hkeys as [Hk Hkeys].
  unfold string_key in Hk. cbn [fst] in Hk.
  destruct k; try discriminate. cbn [map fold_left fst snd key_str]. now apply IH.
Qed.

Lemma json_like_dict (d : list (pykey * pyval)) :
  json_like (PyDict d) = true ->
  forallb string_key d = true /\
  Forall (fun kv => json_like (snd kv) = true) d /\
  distinct_keys (map fst d) = true.
Proof.
  cbn [json_like]. intros H. apply andb_true_iff in H. destruct H as [Hall Hd].
  split; [|split; [|exact Hd]].
  - rewrite forallb_forall in *. intros kv Hin. specialize (Hall kv Hin).
    apply andb_true_iff in Hall. apply Hall.
  - apply Forall_forall. intros kv Hin. rewrite forallb_forall in Hall.
    specialize (Hall kv Hin). apply andb_true_iff in Hall. apply Hall.
Qed.

Lemma scan_once_dict (indent : option nat) (level : nat) (d : list (pykey * pyval)) :
  forallb string_key d = true ->
  distinct_keys (map fst d) = true ->
  Forall (fun kv => head_ok (snd kv) /\ reads_back (snd kv)) d ->
  forall fuel rest,
    (cost (PyDict d) <= fuel)%nat ->
    scan_once fuel (encode indent level (PyDict d) ++ rest) = Some (PyDict d, rest).
Proof.
  intros Hkeys Hdistinct Hback fuel rest Hfuel. rewrite cost_dict in Hfuel.
  destruct fuel as [|fuel]; [lia|].
  destruct d as [|[k v] d]; [reflexivity|].
  assert (Hall : Forall (fun kv => string_key kv = true /\ head_ok (snd kv) /\
                                   reads_back (snd kv)) ((k, v) :: d)).
  { apply Forall_forall. intros kv Hin.
    rewrite forallb_forall in Hkeys. rewrite Forall_forall in Hback.
    destruct (Hback kv Hin) as [Hhead Hread]. repeat split; auto. }
  pose proof (scan_pairs_join indent level ((k, v) :: d) Hall ltac:(discriminate)
                fuel rest ltac:(lia)) as Hpairs.
  rewrite encode_dict_cons.
  change (py "{") with [123%N]. change (py "}") with [125%N].
  cbn [app]. rewrite <- !app_assoc. cbn [scan_once app].
  change (123 =? c_quote)%N with false. change (123 =? 123)%N with true. cbn iota.
  rewrite (skip_ws_app _ _ (all_ws_newline_indent indent (S level))).
  rewrite <- (dict_of_pairs_keys ((k, v) :: d) Hkeys Hdistinct) at 2.
  cbn [forallb] in Hkeys. apply andb_true_iff in Hkeys. destruct Hkeys as [Hk _].
  unfold string_key in Hk. cbn [fst] in Hk. destruct k as [k| | |]; try discriminate.
  cbn [map] in Hpairs |- *. rewrite join_cons, <- !app_assoc in Hpairs |- *.
  rewrite pair_text_app in Hpairs |- *.
  rewrite skip_ws_head by reflexivity.
  change (c_quote =? 125)%N with false. cbn iota.
  now rewrite Hpairs.
Qed.

(** *** Every JSON-like value *)

Lemma scan_once_atom (fuel : nat) (rest : pystr) :
  scan_once (S fuel) (py "null" ++ rest) = Some (PyNone, rest) /\
  scan_once (S fuel) (py "true" ++ rest) = Some (PyBool true, rest) /\
  scan_once (S fuel) (py "false" ++ rest) = Some (PyBool false, rest).
Proof. repeat split. Qed.

Lemma encode_reads_back (v : pyval) : json_like v = true -> reads_back v.
Proof.
  induction v as [|b|z|f|s|l IH|d IH] using pyval_nested_ind; intros Hlike.
  - intros indent level [|fuel] rest Hfuel _; [cbn in Hfuel; lia|].
    apply scan_once_atom.
  - intros indent level [|fuel] rest Hfuel _; [cbn in Hfuel; lia|].
    destruct b; apply scan_once_atom.
  - intros indent level [|fuel] rest Hfuel Hstop; [cbn in Hfuel; lia|].
    now apply scan_once_int.
  - discriminate.
  - intros indent level [|fuel] rest Hfuel _; [cbn in Hfuel; lia|].
    now apply scan_once_string.
  - intros indent level fuel rest Hfuel _.
    apply scan_once_list; [|exact Hfuel].
    cbn [json_like] in Hlike. rewrite forallb_forall in Hlike.
    rewrite Forall_forall in IH |- *. intros v Hin.
    split; [apply json_like_head_ok|]; auto.
  - intros indent level fuel rest Hfuel _.
    destruct (json_like_dict d Hlike) as (Hkeys & Hvals & Hdistinct).
    apply scan_once_dict; [exact Hkeys|exact Hdistinct| |exact Hfuel].
    rewrite Forall_forall in IH, Hvals |- *. intros kv Hin.
    split; [apply json_like_head_ok|]; auto.
Qed.

(** *** Enough fuel *)

Lemma cost_join_le {A} (f : A -> pystr) (c : A -> nat) (sep : pystr) (l : list A) :
  Forall (fun x => (c x + 1 <= 2 * length (f x))%nat) l ->
  (fold_right (fun x acc => S (c x + acc)) 0 l <= 2 * length (join sep (map f l)))%nat.
Proof.
  induction 1 as [|x l Hx Hl IH]; [cbn; lia|].
  cbn [fold_right map]. rewrite join_cons, length_app.
  destruct l as [|y l'].
  - cbn [fold_right length] in *. lia.
  - cbn [map] in IH |- *. rewrite length_app. lia.
Qed.

Lemma cost_le_length (indent : option nat) (v : pyval) :
  json_like v = true ->
  forall level, (cost v + 1 <= 2 * length (encode indent level v))%nat.
Proof.
  induction v as [|b|z|f|s|l IH|d IH] using pyval_nested_ind; intros Hlike level.
  - vm_compute. lia.
  - destruct b; vm_compute; lia.
  - destruct (str_of_int_head z) as (c & t & Hz & _).
    cbn [encode cost]. rewrite Hz. cbn [length]. lia.
  - discriminate.
  - cbn [encode cost]. unfold encode_basestring_ascii, q.
    rewrite !length_app. cbn [length]. lia.
  - rewrite cost_list. destruct l as [|v l]; [vm_compute; lia|].
    rewrite encode_list_cons, !length_app.
    assert (Hitems : (items_cost (v :: l) <=
                      2 * length (join (item_separator indent ++
                                        newline_indent indent (S level))
                                       (map (encode indent (S level)) (v :: l))))%nat).
    { apply cost_join_le. cbn [json_like] in Hlike. rewrite forallb_forall in Hlike.
      rewrite Forall_forall in IH |- *. intros x Hin. apply IH; auto. }
    change (length (py "[")) with 1%nat. change (length (py "]")) with 1%nat. lia.
  - rewrite cost_dict. destruct d as [|kv d]; [vm_compute; lia|].
    rewrite encode_dict_cons, !length_app.
    assert (Hpairs : (pairs_cost (kv :: d) <=
                      2 * length (join (item_separator indent ++
                                        newline_indent indent (S level))
                                       (map (pair_text indent (S level)) (kv :: d))))%nat).
    { apply (cost_join_le (pair_text indent (S level)) (fun kv => cost (snd kv))).
      destruct (json_like_dict _ Hlike) as (_ & Hvals & _).
      rewrite Forall_forall in IH, Hvals |- *. intros x Hin.
      specialize (IH x Hin (Hvals x Hin) (S level)).
      unfold pair_text. rewrite !length_app. lia. }
    change (length (py "{")) with 1%nat. change (length (py "}")) with 1%nat. lia.
Qed.


(** ** Config store: saving and loading *)




(** * Further properties of the module *)

(** ** Dialog layer: what the scripts hold *)

Lemma escape_for_applescript_app (a b : pystr) :
  escape_for_applescript (a ++ b) = escape_for_applescript a ++ escape_for_applescript b.
Proof. rewrite !escape_for_applescript_flat_map. apply flat_map_app. Qed.

Lemma escape_for_applescript_length (s : pystr) :
  length (escape_for_applescript s) = (length s + length (filter special s))%nat.
Proof.
  induction s as [|c s IH]; [reflexivity|].
  rewrite escape_for_applescript_cons, length_app, IH.
  unfold escape_one, special. cbn [filter length].
  destruct (N.eqb_spec c c_backslash); [cbn; lia|].
  destruct (N.eqb_spec c c_quote); cbn; lia.
Qed.

Lemma plain_no_special (s : pystr) : plain s = true <-> filter special s = [].
Proof.
  unfold plain. induction s as [|c s IH]; [easy|].
  cbn [forallb filter]. destruct (special c); cbn [negb andb]; [easy|exact IH].
Qed.

(** X1: escaping distributes over concatenation, adds one character
    for every backslash and double quote, and so leaves a string
    unchanged exactly when the string holds neither. *)
Theorem escape_for_applescript_growth (s a b : pystr) :
  escape_for_applescript (a ++ b) =
    escape_for_applescript a ++ escape_for_applescript b /\
  length (escape_for_applescript s) = (length s + length (filter special s))%nat /\
  (escape_for_applescript s = s <-> plain s = true).
Proof.
  split; [apply escape_for_applescript_app|].
  split; [apply escape_for_applescript_length|].
  rewrite plain_no_special. split.
  - intros H. pose proof (escape_for_applescript_length s) as Hlen.
    rewrite H in Hlen. destruct (filter special s); [reflexivity|cbn in Hlen; lia].
  - intros H. rewrite escape_for_applescript_flat_map.
    induction s as [|c s IH]; [reflexivity|].
    cbn [filter] in H. destruct (special c) eqn:Hc; [discriminate|].
    cbn [flat_map]. rewrite (IH H). unfold escape_one. unfold special in Hc.
    apply orb_false_iff in Hc. destruct Hc as [-> ->]. reflexivity.
Qed.

Lemma lit_skip (pre s : pystr) :
  no_quote pre = true ->
  script_literals_from None (pre ++ s) = script_literals_from None s.
Proof.
  induction pre as [|c pre IH]; [reflexivity|].
  cbn [no_quote forallb]. intros H. apply andb_true_iff in H. destruct H as [Hc Hpre].
  apply negb_true_iff in Hc. cbn [app script_literals_from]. rewrite Hc. now apply IH.
Qed.

Lemma lit_open (s : pystr) :
  script_literals_from None (c_quote :: s) = script_literals_from (Some (rev [])) s.
Proof. reflexivity. Qed.

Lemma lit_close (cur s : pystr) :
  script_literals_from (Some (rev cur)) (c_quote :: s) =
  option_map (cons cur) (script_literals_from None s).
Proof. cbn [script_literals_from]. now rewrite N.eqb_refl, rev_involutive. Qed.

Lemma lit_plain (p cur s : pystr) :
  plain p = true ->
  script_literals_from (Some (rev cur)) (p ++ s) =
  script_literals_from (Some (rev (cur ++ p))) s.
Proof.
  revert cur. induction p as [|c p IH]; intros cur Hp.
  - now rewrite app_nil_r.
  - cbn [plain forallb] in Hp. apply andb_true_iff in Hp. destruct Hp as [Hc Hp].
    apply negb_true_iff in Hc. unfold special in Hc. apply orb_false_iff in Hc.
    destruct Hc as [Hb Hq]. cbn [app script_literals_from]. rewrite Hq, Hb.
    replace (c :: rev cur) with (rev (cur ++ [c])) by (now rewrite rev_app_distr).
    rewrite (IH (cur ++ [c]) Hp), <- app_assoc. reflexivity.
Qed.

Lemma lit_escaped (x cur s : pystr) :
  script_literals_from (Some (rev cur)) (escape_for_applescript x ++ s) =
  script_literals_from (Some (rev (cur ++ x))) s.
Proof.
  revert cur. induction x as [|c x IH]; intros cur.
  - now rewrite app_nil_r.
  - rewrite escape_for_applescript_cons, <- app_assoc.
    assert (Hstep : forall t,
               script_literals_from (Some (rev cur)) (escape_one c ++ t) =
               script_literals_from (Some (rev (cur ++ [c]))) t).
    { intros t. rewrite rev_app_distr. cbn [rev app]. unfold escape_one.
      destruct (N.eqb_spec c c_backslash) as [->|Hb]; [reflexivity|].
      destruct (N.eqb_spec c c_quote) as [->|Hq]; [reflexivity|].
      cbn [app script_literals_from].
      destruct (N.eqb_spec c c_quote); [contradiction|].
      destruct (N.eqb_spec c c_backslash); [contradiction|reflexivity]. }
    rewrite Hstep, (IH (cur ++ [c])), <- app_assoc. reflexivity.
Qed.

Local Ltac read_literals :=
  unfold q; rewrite <- ?app_assoc; cbn [app];
  repeat first
    [ rewrite lit_open
    | rewrite lit_close
    | rewrite lit_escaped
    | rewrite lit_plain by (reflexivity || assumption)
    | rewrite lit_skip by reflexivity ];
  rewrite <- ?app_assoc; reflexivity.

(** X2: whatever the message and the title hold, AppleScript reads
    the script of [show_alert] as holding exactly six string literals:
    the icon path, the application name, the message, the title and
    the two button labels.  No character of the message or the title
    ends its literal or is read as script. *)
Theorem show_alert_script_literals (message title : pystr) :
  script_literals (show_alert_script message title) =
  Some [MAILMATE_ICON; py "System Events"; message; title; py "OK"; py "OK"].
Proof.
  unfold script_literals, show_alert_script, alert_template. read_literals.
Qed.

(** X3: whatever the message, the default answer and the title hold,
    the script of [show_dialog] is read as holding exactly the icon
    path, the application name, the message, the default answer, the
    button labels and the title, with or without [hidden]. *)
Theorem show_dialog_script_literals (message default_answer title : pystr)
    (hidden : bool) :
  script_literals (show_dialog_script message default_answer hidden title) =
  Some [MAILMATE_ICON; py "System Events"; message; default_answer;
        py "Cancel"; py "OK"; py "OK"; title].
Proof.
  unfold script_literals, show_dialog_script, dialog_template.
  destruct hidden; read_literals.
Qed.

(** X4: when the threat type holds neither a backslash nor a double
    quote, the script of [show_threat_dialog] is read as holding
    exactly the icon path, the application name, the dialog text with
    the threat type and the reason in it, the button labels and the
    title, whatever the reason and the title hold. *)
Theorem show_threat_dialog_script_literals (threat_type reason title : pystr) :
  plain threat_type = true ->
  script_literals (show_threat_dialog_script threat_type reason title) =
  Some [MAILMATE_ICON; py "System Events";
        threat_type ++ nl ++ nl ++ py "Reason: " ++ reason ++ nl ++ nl ++
          py "Move to Junk folder?";
        py "Keep"; py "Move to Junk"; py "Move to Junk"; title].
Proof.
  intros Hplain.
  unfold script_literals, show_threat_dialog_script, threat_template. read_literals.
Qed.

Lemma show_threat_dialog_script_literals_witness :
  script_literals
    (show_threat_dialog_script (py "Phishing") (c_quote :: py "urgent" ++ [c_quote])
                               (py "LLM MailGuard")) =
  Some [MAILMATE_ICON; py "System Events";
        py "Phishing" ++ nl ++ nl ++ py "Reason: " ++
          (c_quote :: py "urgent" ++ [c_quote]) ++ nl ++ nl ++ py "Move to Junk folder?";
        py "Keep"; py "Move to Junk"; py "Move to Junk"; py "LLM MailGuard"].
Proof.
  exact (show_threat_dialog_script_literals (py "Phishing")
           (c_quote :: py "urgent" ++ [c_quote]) (py "LLM MailGuard") eq_refl).
Defined.

(** ** Dialog layer: what the bridge returns *)

Lemma lstrip_idempotent (s : pystr) : lstrip (lstrip s) = lstrip s.
Proof.
  induction s as [|c s IH]; [reflexivity|].
  cbn [lstrip]. destruct (isspace c) eqn:Hc; [exact IH|].
  cbn [lstrip]. now rewrite Hc.
Qed.

Lemma lstrip_split (s : pystr) :
  exists w, s = w ++ lstrip s /\ forallb isspace w = true.
Proof.
  induction s as [|c s (w & Hs & Hw)]; [now exists []|].
  cbn [lstrip]. destruct (isspace c) eqn:Hc.
  - exists (c :: w). cbn [app forallb]. rewrite Hc, Hw. split; [now f_equal|reflexivity].
  - now exists [].
Qed.

Lemma rstrip_split (s : pystr) : exists w, s = rstrip s ++ w.
Proof.
  unfold rstrip. destruct (lstrip_split (rev s)) as (w & Hs & _).
  exists (rev w). rewrite <- rev_app_distr, <- Hs. now rewrite rev_involutive.
Qed.

Lemma rstrip_idempotent (s : pystr) : rstrip (rstrip s) = rstrip s.
Proof. unfold rstrip. now rewrite rev_involutive, lstrip_idempotent. Qed.

(** Stripping a stripped string changes nothing. *)
Lemma strip_idempotent (s : pystr) : strip (strip s) = strip s.
Proof.
  unfold strip. set (y := lstrip s).
  assert (Hy : lstrip y = y) by apply lstrip_idempotent.
  assert (Hl : lstrip (rstrip y) = rstrip y).
  { destruct (rstrip_split y) as (w & Hw).
    destruct (rstrip y) as [|c t] eqn:Hr; [reflexivity|].
    apply lstrip_fixed. rewrite Hw in Hy. apply lstrip_fixed in Hy. exact Hy. }
  rewrite Hl. apply rstrip_idempotent.
Qed.

Lemma strip_no_surrounding_space (s : pystr) : no_surrounding_space (strip s) = true.
Proof. apply strip_fixed. apply strip_idempotent. Qed.

Section BridgeResults.

Variable osascript : pystr -> result (Z * pystr).

Lemma run_applescript_some (script text : pystr) :
  run_applescript osascript script = Some text <->
  exists stdout, osascript script = Ret (0%Z, stdout) /\ text = strip stdout.
Proof.
  unfold run_applescript. destruct (osascript script) as [[returncode stdout]|e].
  - destruct (Z.eqb_spec returncode 0) as [->|Hrc]; cbn [negb]; split.
    + intros [= <-]. now exists stdout.
    + intros (out & [= <-] & ->). reflexivity.
    + discriminate.
    + intros (out & [= Hz _] & _). contradiction.
  - split; [discriminate|]. intros (out & H & _). discriminate.
Qed.

(** X5: the text that [show_dialog] returns is what the dialog tool
    printed with a zero return code, stripped: it never starts or ends
    with white space, so white space typed around an answer is lost
    and an answer of white space alone comes back empty. *)
Theorem show_dialog_returns_stripped_text
    (message default_answer title : pystr) (hidden : bool) (text : pystr) :
  show_dialog osascript message default_answer hidden title = Some text ->
  (exists stdout,
     osascript (show_dialog_script message default_answer hidden title)
       = Ret (0%Z, stdout) /\ text = strip stdout) /\
  no_surrounding_space text = true /\
  strip text = text.
Proof.
  unfold show_dialog. intros H. apply run_applescript_some in H.
  destruct H as (stdout & Hrun & ->). split; [now exists stdout|].
  split; [apply strip_no_surrounding_space|apply strip_idempotent].
Qed.

(** X6: [show_threat_dialog] answers [True] exactly when the dialog
    tool ended with a zero return code and printed the label Move to
    Junk, white space around it apart.  A tool that cannot be
    started, a non-zero return code (the dialog was cancelled) and any
    other text all give [False]: the message is kept. *)
Theorem show_threat_dialog_true_iff (threat_type reason title : pystr) :
  show_threat_dialog osascript threat_type reason title = true <->
  exists stdout,
    osascript (show_threat_dialog_script threat_type reason title) = Ret (0%Z, stdout) /\
    strip stdout = py "Move to Junk".
Proof.
  unfold show_threat_dialog.
  destruct (run_applescript osascript _) as [text|] eqn:Hrun.
  - apply run_applescript_some in Hrun. destruct Hrun as (stdout & Hos & ->).
    rewrite pystr_eqb_eq. split.
    + intros H. now exists stdout.
    + intros (out & Hos' & Hout). rewrite Hos in Hos'. now injection Hos' as <-.
  - split; [discriminate|]. intros (stdout & Hos & Hout).
    assert (Hsome : run_applescript osascript
                      (show_threat_dialog_script threat_type reason title)
                    = Some (strip stdout)).
    { apply run_applescript_some. now exists stdout. }
    congruence.
Qed.

End BridgeResults.

Lemma show_dialog_returns_stripped_text_witness :
  show_dialog (fun _ => Ret (0%Z, py "  sk-abc " ++ nl)) (py "API key") [] true
              (py "LLM MailGuard") = Some (py "sk-abc") /\
  no_surrounding_space (py "sk-abc") = true.
Proof.
  split; [reflexivity|].
  exact (proj1 (proj2 (show_dialog_returns_stripped_text
                         (fun _ => Ret (0%Z, py "  sk-abc " ++ nl))
                         (py "API key") [] (py "LLM MailGuard") true (py "sk-abc")
                         eq_refl))).
Defined.

(** ** Credential store: every state of the keychain *)

(** X7: [get_api_key_from_keychain] gives no key exactly when the
    tool cannot be started, the keychain does not answer or holds no
    entry; a key it gives never starts or ends with white space. *)
Theorem get_api_key_none_iff (kc : keychain) :
  (get_api_key_from_keychain kc = None <->
   tool_present kc = false \/ unlocked kc = false \/ secret kc = None) /\
  (forall key, get_api_key_from_keychain kc = Some key ->
               no_surrounding_space key = true).
Proof.
  unfold get_api_key_from_keychain, security.
  destruct kc as [[|] [|] [s|]]; cbn; split;
    try (split; [discriminate|intros [H|[H|H]]; discriminate]);
    try (split; [intros _; auto|reflexivity]);
    try discriminate.
  intros key [= <-]. apply strip_no_surrounding_space.
Qed.


(** ** The json module: text around a value, and the float 0.1 *)

Lemma all_ws_number_stop (w : pystr) : all_ws w = true -> number_stop w = true.
Proof.
  destruct w as [|c w]; [reflexivity|]. cbn [all_ws forallb]. intros H.
  apply andb_true_iff in H. destruct H as [Hc _].
  unfold number_stop, is_digit. unfold is_ws in Hc.
  assert (Hcases : (c = 32 \/ c = 9 \/ c = 10 \/ c = 13)%N).
  { rewrite !orb_true_iff, !N.eqb_eq in Hc. tauto. }
  destruct Hcases as [-> | [-> | [-> | ->]]]; reflexivity.
Qed.

Lemma skip_ws_all_ws (w : pystr) : all_ws w = true -> skip_ws w = [].
Proof.
  intros Hw. pose proof (skip_ws_app w [] Hw) as H. now rewrite app_nil_r in H.
Qed.

(** The text of a readable value, with white space before and after
    it, is decoded as that value. *)
Lemma json_loads_readable (indent : option nat) (v : pyval) (w1 w2 : pystr) :
  readable v -> all_ws w1 = true -> all_ws w2 = true ->
  json_loads (w1 ++ encode indent 0 v ++ w2) = Ret v.
Proof.
  intros (Hhead & Hback & Hcost) Hw1 Hw2. unfold json_loads.
  rewrite (skip_ws_encode indent 0 v w1 w2 Hhead Hw1).
  assert (Hfuel : (cost v <= S (2 * length (w1 ++ encode indent 0 v ++ w2)))%nat).
  { specialize (Hcost indent 0%nat). rewrite !length_app. lia. }
  rewrite (Hback indent 0%nat _ w2 Hfuel (all_ws_number_stop w2 Hw2)).
  now rewrite (skip_ws_all_ws w2 Hw2).
Qed.

Lemma json_like_readable (v : pyval) : json_like v = true -> readable v.
Proof.
  intros Hv. split; [now apply json_like_head_ok|].
  split; [now apply encode_reads_back|].
  intros indent level. now apply cost_le_length.
Qed.

(** The float 0.1 is written as 0.1 and read back as 0.1. *)
Lemma readable_tenth : readable (PyFloat (FDec false 1 (-1))).
Proof.
  split; [|split].
  - intros indent level. now exists 48%N, [46%N; 49%N].
  - intros indent level [|fuel] rest Hfuel Hstop; [cbn in Hfuel; lia|].
    change (encode indent level (PyFloat (FDec false 1 (-1))) ++ rest)
      with (48%N :: 46%N :: 49%N :: rest).
    apply scan_once_number; [reflexivity|].
    assert (Hfrac : read_frac (46%N :: 49%N :: rest) = (Some (Decimal.D1 Decimal.Nil), rest)).
    { unfold read_frac. change (46 =? 46)%N with true. cbn iota.
      cbn [read_digits]. change (digit_of 49) with (Some Decimal.D1). cbn iota.
      now rewrite (read_digits_stop rest Hstop). }
    unfold match_number.
    change (read_integer (48%N :: 46%N :: 49%N :: rest))
      with (Some (false, Decimal.D0 Decimal.Nil, 46%N :: 49%N :: rest)).
    cbn beta iota. rewrite Hfrac, (read_exp_stop rest Hstop). reflexivity.
  - intros indent level. vm_compute. lia.
Qed.

Lemma readable_dict (d : list (pykey * pyval)) :
  forallb string_key d = true ->
  distinct_keys (map fst d) = true ->
  Forall (fun kv => readable (snd kv)) d ->
  readable (PyDict d).
Proof.
  intros Hkeys Hdistinct Hall. split; [|split].
  - intros indent level. destruct d; now do 2 eexists.
  - intros indent level fuel rest Hfuel _.
    apply scan_once_dict; [exact Hkeys|exact Hdistinct| |exact Hfuel].
    rewrite Forall_forall in Hall |- *. intros kv Hin.
    destruct (Hall kv Hin) as (Hh & Hb & _). now split.
  - intros indent level. rewrite cost_dict. destruct d as [|kv d]; [vm_compute; lia|].
    rewrite encode_dict_cons, !length_app.
    assert (Hpairs : (pairs_cost (kv :: d) <=
                      2 * length (join (item_separator indent ++
                                        newline_indent indent (S level))
                                       (map (pair_text indent (S level)) (kv :: d))))%nat).
    { apply (cost_join_le (pair_text indent (S level)) (fun kv => cost (snd kv))).
      rewrite Forall_forall in Hall |- *. intros x Hin.
      destruct (Hall x Hin) as (_ & _ & Hc). specialize (Hc indent (S level)).
      unfold pair_text. rewrite !length_app. lia. }
    change (length (py "{")) with 1%nat. change (length (py "}")) with 1%nat. lia.
Qed.

(** ** API client: truncation and the request body *)

Lemma truncation_marker_length : length truncation_marker = 35%nat.
Proof. reflexivity. Qed.

Lemma truncate_email_length (s : pystr) :
  (Z.of_nat (length (truncate_email s)) <= 30035)%Z.
Proof.
  destruct (Z.gtb_spec (Z.of_nat (length s)) max_chars) as [Hlong|Hshort].
  - rewrite truncate_email_long by lia.
    rewrite length_app, length_firstn, truncation_marker_length.
    unfold max_chars in *. lia.
  - rewrite truncate_email_short by lia. unfold max_chars in *. lia.
Qed.

(** X9: the content sent never has more than 30,035 characters, and
    truncating is idempotent: content that was truncated once is left
    as it is by a second truncation, so a payload built from the
    content of an earlier payload carries the same content. *)
Theorem truncate_email_idempotent (model system_prompt email_content : pystr) :
  (Z.of_nat (length (truncate_email email_content)) <= 30035)%Z /\
  truncate_email (truncate_email email_content) = truncate_email email_content /\
  payload_user_content
    (build_payload model system_prompt (truncate_email email_content)) =
  payload_user_content (build_payload model system_prompt email_content).
Proof.
  assert (Hidem : truncate_email (truncate_email email_content)
                  = truncate_email email_content).
  { destruct (Z.gtb_spec (Z.of_nat (length email_content)) max_chars) as [Hlong|Hshort].
    - rewrite (truncate_email_long email_content) by lia.
      set (n := Z.to_nat max_chars).
      assert (Hn : length (firstn n email_content) = n).
      { rewrite length_firstn. unfold n, max_chars in *. lia. }
      rewrite truncate_email_long.
      + fold n. rewrite firstn_app, Hn, Nat.sub_diag, firstn_O, app_nil_r.
        now rewrite firstn_firstn, Nat.min_id.
      + rewrite length_app, Hn, truncation_marker_length. unfold n, max_chars. lia.
    - now rewrite !(truncate_email_short email_content) by lia. }
  split; [apply truncate_email_length|]. split; [exact Hidem|].
  rewrite !payload_user_content_build. now rewrite Hidem.
Qed.

Lemma forallb_firstn {A} (p : A -> bool) (n : nat) (l : list A) :
  forallb p l = true -> forallb p (firstn n l) = true.
Proof.
  revert l. induction n as [|n IH]; intros [|x l]; cbn [firstn forallb]; try easy.
  intros H. apply andb_true_iff in H. destruct H as [Hx Hl].
  now rewrite Hx, (IH l Hl).
Qed.

Lemma valid_str_truncate_email (s : pystr) :
  valid_str s = true -> valid_str (truncate_email s) = true.
Proof.
  intros Hs. unfold truncate_email, valid_str in *.
  destruct (Z.of_nat (length s) >? max_chars)%Z; [|exact Hs].
  rewrite forallb_app, (forallb_firstn _ _ _ Hs). reflexivity.
Qed.

Lemma readable_payload (model system_prompt email_content : pystr) :
  valid_str model = true -> valid_str system_prompt = true ->
  valid_str email_content = true ->
  readable (build_payload model system_prompt email_content).
Proof.
  intros Hm Hs He. unfold build_payload.
  pose proof (valid_str_truncate_email email_content He) as Hc.
  generalize dependent (truncate_email email_content). intros content Hc.
  apply readable_dict; [reflexivity|reflexivity|].
  repeat (apply Forall_cons; [cbn [snd]|]); [| | | |apply Forall_nil].
  - apply json_like_readable. exact Hm.
  - apply json_like_readable. cbn [json_like forallb fst snd map distinct_keys].
    rewrite Hs, Hc. reflexivity.
  - now apply json_like_readable.
  - apply readable_tenth.
Qed.

(** X10: when the model name, the system prompt and the email are
    strings of Unicode scalar values, the body of the request is JSON
    text that decodes to the payload it was written from: whatever the
    email holds (quotes, backslashes, line breaks, control characters,
    characters outside ASCII), the server reads the very content that
    was put in. *)
Theorem request_body_decodes_to_payload
    (endpoint model : pystr) (api_key : option pystr)
    (system_prompt email_content : pystr) :
  valid_str model = true -> valid_str system_prompt = true ->
  valid_str email_content = true ->
  json_loads (req_data (build_request endpoint model api_key system_prompt email_content))
  = Ret (build_payload model system_prompt email_content).
Proof.
  intros Hm Hs He.
  pose proof (json_loads_readable None _ [] []
                (readable_payload model system_prompt email_content Hm Hs He)
                eq_refl eq_refl) as H.
  cbn [app] in H. rewrite app_nil_r in H. exact H.
Qed.

Lemma request_body_decodes_to_payload_witness :
  let email := py "Click " ++ q (py "here") ++ nl ++ [c_backslash; 0%N; 233%N; 128512%N] in
  json_loads (req_data (build_request (py "e") (py "gpt-5.2") None (py "Classify.") email))
  = Ret (build_payload (py "gpt-5.2") (py "Classify.") email).
Proof.
  intros email.
  exact (request_body_decodes_to_payload (py "e") (py "gpt-5.2") None (py "Classify.")
           email eq_refl eq_refl eq_refl).
Defined.

(** ** Config store: files not written by [save_config] *)



(** ** Action emitter: what the host reads *)



(** ** API client: responses that are not mappings *)

Lemma extract_content_non_mapping (body : pystr) (response : pyval)
    (outcome : result pyval) :
  json_loads body = Ret response ->
  non_mapping_outcome response = Some outcome ->
  extract_content body = outcome.
Proof.
  intros Hload Hout. unfold extract_content. rewrite Hload. cbn [bind].
  destruct response as [|b|z|f|s|l|d]; cbn in Hout; try discriminate;
    injection Hout as <-; try reflexivity.
  - cbn [contains_str bind]. destruct (str_contains (py "choices") s); reflexivity.
  - cbn [contains_str bind]. fold is_choices.
    destruct (existsb is_choices l); reflexivity.
Qed.

Section NonMapping.

Variable urlopen : Request -> Z -> result pystr.
Variables endpoint model : pystr.
Variable api_key : option pystr.
Variables system_prompt email_content : pystr.

(** X13: a JSON response that is not a mapping is not turned into
    [None] in general.  For [null], a boolean or a number the test
    for choices itself raises a [TypeError].  For a list or a string
    the test is a membership test: the call returns [None] when
    choices is no element of the list (no part of the string), and
    raises a [TypeError], from indexing by a string, when it is. *)
Theorem call_llm_api_non_mapping_response
    (body : pystr) (response : pyval) (outcome : result pyval) :
  urlopen (build_request endpoint model api_key system_prompt email_content) 60
    = Ret body ->
  json_loads body = Ret response ->
  non_mapping_outcome response = Some outcome ->
  call_llm_api urlopen endpoint model api_key system_prompt email_content = outcome.
Proof.
  intros Hopen Hload Hout.
  rewrite (call_llm_api_on_response urlopen endpoint model api_key system_prompt
             email_content body Hopen).
  rewrite (extract_content_non_mapping body response outcome Hload Hout).
  now destruct outcome.
Qed.

End NonMapping.

Lemma call_llm_api_non_mapping_response_witness :
  call_llm_api (fun _ _ => Ret (py "[]")) (py "e") (py "m") None (py "s") (py "c")
    = Ret PyNone /\
  call_llm_api (fun _ _ => Ret (py "null")) (py "e") (py "m") None (py "s") (py "c")
    = Raise TypeError /\
  call_llm_api (fun _ _ => Ret (py "[" ++ q (py "choices") ++ py "]"))
    (py "e") (py "m") None (py "s") (py "c")
    = Raise TypeError.
Proof.
  split; [|split].
  - exact (call_llm_api_non_mapping_response (fun _ _ => Ret (py "[]"))
             (py "e") (py "m") None (py "s") (py "c")
             (py "[]") (PyList []) (Ret PyNone) eq_refl eq_refl eq_refl).
  - exact (call_llm_api_non_mapping_response (fun _ _ => Ret (py "null"))
             (py "e") (py "m") None (py "s") (py "c")
             (py "null") PyNone (Raise TypeError) eq_refl eq_refl eq_refl).
  - exact (call_llm_api_non_mapping_response
             (fun _ _ => Ret (py "[" ++ q (py "choices") ++ py "]"))
             (py "e") (py "m") None (py "s") (py "c")
             (py "[" ++ q (py "choices") ++ py "]")
             (PyList [PyStr (py "choices")]) (Raise TypeError)
             eq_refl eq_refl eq_refl).
Defined.

(** ** The json module: the text is printable ASCII *)

Create HintDb printable.

Lemma printable_uint_chars (u : Decimal.uint) : forallb printable (uint_chars u) = true.
Proof. induction u; cbn [uint_chars forallb]; auto. Qed.

Lemma forallb_skipn {A} (p : A -> bool) (n : nat) (l : list A) :
  forallb p l = true -> forallb p (skipn n l) = true.
Proof.
  revert l. induction n as [|n IH]; intros [|x l]; cbn [skipn forallb]; try easy.
  intros H. apply andb_true_iff in H. now apply IH.
Qed.

Lemma printable_repeat (c : N) (n : nat) :
  printable c = true -> forallb printable (repeat c n) = true.
Proof. intros Hc. induction n; cbn [repeat forallb]; [reflexivity|now rewrite Hc]. Qed.

#[local] Hint Resolve printable_uint_chars forallb_firstn forallb_skipn
  printable_repeat : printable.
#[local] Hint Extern 1 (forallb printable (py _) = true) => reflexivity : printable.
#[local] Hint Extern 1 (forallb printable [] = true) => reflexivity : printable.
#[local] Hint Extern 1 (printable _ = true) => reflexivity : printable.

Local Ltac printable_parts :=
  repeat match goal with
         | |- context [if ?b then _ else _] => destruct b
         end;
  rewrite ?forallb_app, ?andb_true_iff; repeat split; auto with printable.

Lemma printable_str_of_int (z : Z) : forallb printable (str_of_int z) = true.
Proof.
  unfold str_of_int. destruct (Z.to_int z); cbn [forallb];
    rewrite ?printable_uint_chars; reflexivity.
Qed.

Lemma printable_floatstr (f : pyfloat) : forallb printable (floatstr f) = true.
Proof.
  destruct f as [|[|]|neg m e]; try reflexivity.
  unfold floatstr, float_repr_finite. cbv zeta. printable_parts.
Qed.

Lemma printable_hexdigit (d : N) : (d < 16)%N -> printable (hexdigit d) = true.
Proof.
  intros Hd. unfold printable, hexdigit.
  destruct (N.ltb_spec d 10); apply andb_true_iff; split; apply N.leb_le; lia.
Qed.

Lemma printable_hex4 (n : N) : (n < 65536)%N -> forallb printable (hex4 n) = true.
Proof.
  intros Hn. unfold hex4. cbn [forallb].
  rewrite !printable_hexdigit by n_arith. reflexivity.
Qed.

Lemma surrogate_halves_small (x : N) :
  (N.lor 55296 (N.land x 1023) < 65536)%N /\ (N.lor 56320 (N.land x 1023) < 65536)%N.
Proof.
  change 1023%N with (N.ones 10). rewrite N.land_ones.
  assert (Hr : (x mod 2 ^ 10 < 2 ^ 10)%N) by (apply N.mod_lt; discriminate).
  change 55296%N with (54 * 2 ^ 10)%N. change 56320%N with (55 * 2 ^ 10)%N.
  rewrite !lor_high_low by exact Hr.
  change (2 ^ 10)%N with 1024%N in *. split; lia.
Qed.

Lemma printable_escape_ascii (c : N) : forallb printable (escape_ascii c) = true.
Proof.
  unfold escape_ascii.
  repeat match goal with
         | |- context [if (c =? ?k)%N then _ else _] => destruct (c =? k)%N; [reflexivity|]
         end.
  destruct ((32 <=? c) && (c <=? 126))%N eqn:Hp.
  { cbn [forallb]. unfold printable. now rewrite Hp. }
  destruct (N.ltb_spec c 65536) as [Hsmall|Hbig].
  - cbn [forallb]. now rewrite (printable_hex4 c Hsmall).
  - cbv zeta.
    destruct (surrogate_halves_small (N.shiftr (c - 65536) 10)) as [H1 _].
    destruct (surrogate_halves_small (c - 65536)) as [_ H2].
    rewrite forallb_app. cbn [forallb].
    now rewrite (printable_hex4 _ H1), (printable_hex4 _ H2).
Qed.

Lemma printable_basestring (s : pystr) :
  forallb printable (encode_basestring_ascii s) = true.
Proof.
  unfold encode_basestring_ascii, q. cbn [app forallb].
  rewrite forallb_app. cbn [forallb].
  induction s as [|c s IH]; [reflexivity|].
  cbn [flat_map]. rewrite forallb_app, printable_escape_ascii. exact IH.
Qed.

Lemma printable_join (sep : pystr) (items : list pystr) :
  forallb printable sep = true ->
  Forall (fun x => forallb printable x = true) items ->
  forallb printable (join sep items) = true.
Proof.
  intros Hsep. induction 1 as [|x items Hx Hitems IH]; [reflexivity|].
  rewrite join_cons, forallb_app, Hx.
  destruct items; [reflexivity|]. now rewrite forallb_app, Hsep, IH.
Qed.

(** Without [indent], [json.dumps] writes printable ASCII only. *)
Lemma printable_encode (v : pyval) :
  forall level, forallb printable (encode None level v) = true.
Proof.
  induction v as [|b|z|f|s|l IH|d IH] using pyval_nested_ind; intros level.
  - reflexivity.
  - now destruct b.
  - apply printable_str_of_int.
  - apply printable_floatstr.
  - apply printable_basestring.
  - destruct l as [|v l]; [reflexivity|].
    rewrite encode_list_cons. cbn [newline_indent item_separator].
    rewrite !forallb_app, printable_join; [reflexivity|reflexivity|].
    rewrite Forall_forall in IH |- *. intros x Hin.
    apply in_map_iff in Hin. destruct Hin as (y & <- & Hy). now apply IH.
  - destruct d as [|kv d]; [reflexivity|].
    rewrite encode_dict_cons. cbn [newline_indent item_separator].
    rewrite !forallb_app, printable_join; [reflexivity|reflexivity|].
    rewrite Forall_forall in IH |- *. intros x Hin.
    apply in_map_iff in Hin. destruct Hin as (y & <- & Hy).
    unfold pair_text. rewrite !forallb_app, printable_basestring, (IH y Hy).
    reflexivity.
Qed.

(** X14: whatever the model name, the prompt and the email hold, the
    body of the request consists of printable ASCII characters only
    (every other character is written as an escape), so encoding it
    as UTF-8 gives one byte per character. *)
Theorem request_body_is_printable_ascii
    (endpoint model : pystr) (api_key : option pystr)
    (system_prompt email_content : pystr) :
  forallb printable
    (req_data (build_request endpoint model api_key system_prompt email_content))
  = true.
Proof. apply printable_encode. Qed.

